(** * MIG loader and manifest API: manifest-driven reconciliation

    A shallow embedding of the Go sources of the MIG loader
    ([mig/loader/loader.go]), of the manifest endpoints of the API
    ([mig/api/manifest_endpoints.go]) and of the shared manifest and
    bundle code of package [mig], with the properties of the
    reconciliation protocol stated and settled against that embedding.

    Go strings are byte strings: they are [string] here (a list of
    8-bit [ascii]), file contents are [list byte], maps keyed by
    paths are stdpp's [gmap string].  Functions that return a Go
    [error] return a [result]; run-time panics (nil dereference, index
    out of range, the handlers' explicit [panic]) are a third outcome. *)

From Stdlib Require Import ZArith NArith List String Ascii Lia Bool.
From Stdlib Require Import Strings.Byte.
From stdpp Require Import base option list gmap strings.

Import ListNotations.
Local Open Scope string_scope.
Local Open Scope list_scope.

(* ===================================================================== *)
(** ** crypto/sha256 and the ["%x"] verb *)
(* ===================================================================== *)

(** [crypto/sha256] is FIPS 180-4 SHA-256.  Words are 32-bit integers
    carried in [Z] with the wrap-around written out.  The round
    constants and the initial state are computed the way the standard
    defines them: the first 32 bits of the fractional parts of the cube
    (resp. square) roots of the first 64 (resp. 8) primes. *)
Module Sha256.
Local Open Scope Z_scope.

Definition wrap32 (x : Z) : Z := x mod 2 ^ 32.

Definition add32 (x y : Z) : Z := wrap32 (x + y).

Definition rotr (n x : Z) : Z :=
  Z.lor (Z.shiftr x n) (wrap32 (Z.shiftl x (32 - n))).

Definition not32 (x : Z) : Z := Z.lxor x (2 ^ 32 - 1).

Definition ch (e f g : Z) : Z := Z.lxor (Z.land e f) (Z.land (not32 e) g).

Definition maj (a b c : Z) : Z :=
  Z.lxor (Z.lxor (Z.land a b) (Z.land a c)) (Z.land b c).

Definition bsig0 (a : Z) : Z := Z.lxor (Z.lxor (rotr 2 a) (rotr 13 a)) (rotr 22 a).
Definition bsig1 (e : Z) : Z := Z.lxor (Z.lxor (rotr 6 e) (rotr 11 e)) (rotr 25 e).
Definition ssig0 (w : Z) : Z := Z.lxor (Z.lxor (rotr 7 w) (rotr 18 w)) (Z.shiftr w 3).
Definition ssig1 (w : Z) : Z := Z.lxor (Z.lxor (rotr 17 w) (rotr 19 w)) (Z.shiftr w 10).

Definition is_prime (n : Z) : bool :=
  (1 <? n) && forallb (fun d => negb (n mod d =? 0))
                      (List.map Z.of_nat (List.seq 2 (Z.to_nat n - 2))).

Definition primes64 : list Z :=
  Eval vm_compute in
    firstn 64 (List.filter is_prime (List.map Z.of_nat (List.seq 2 320))).

(** Integer cube root by bisection on the bits below [2^bits]. *)
Fixpoint icbrt_bits (bits : nat) (n r : Z) : Z :=
  match bits with
  | O => r
  | S b =>
      let r' := r + 2 ^ Z.of_nat b in
      icbrt_bits b n (if r' * r' * r' <=? n then r' else r)
  end.

Definition frac_cbrt32 (p : Z) : Z := wrap32 (icbrt_bits 40 (p * 2 ^ 96) 0).
Definition frac_sqrt32 (p : Z) : Z := wrap32 (Z.sqrt (p * 2 ^ 64)).

Definition K256 : list Z := Eval vm_compute in List.map frac_cbrt32 primes64.
Definition init256 : list Z :=
  Eval vm_compute in List.map frac_sqrt32 (firstn 8 primes64).

(** Big-endian packing. *)
Fixpoint be_word (bs : list Z) : Z :=
  match bs with
  | [] => 0
  | b :: tl => b * 2 ^ (8 * Z.of_nat (List.length tl)) + be_word tl
  end.

Fixpoint be_bytes (n : nat) (x : Z) : list Z :=
  match n with
  | O => []
  | S m => (x / 2 ^ (8 * Z.of_nat m)) mod 256 :: be_bytes m x
  end.

(** Padding: a one bit, zero bits up to 56 mod 64 bytes, the bit length
    on 64 bits. *)
Definition pad (msg : list Z) : list Z :=
  let len := Z.of_nat (List.length msg) in
  msg ++ [128] ++ List.repeat 0 (Z.to_nat ((55 - len) mod 64))
      ++ be_bytes 8 (8 * len).

Fixpoint groups (n count : nat) (l : list Z) : list (list Z) :=
  match count with
  | O => []
  | S c => firstn n l :: groups n c (skipn n l)
  end.

Definition words_of_block (blk : list Z) : list Z :=
  List.map be_word (groups 4 16 blk).

(** The message schedule: 48 more words after the block's 16. *)
Fixpoint extend (n : nat) (w : list Z) : list Z :=
  match n with
  | O => w
  | S m =>
      let t := List.length w in
      let at_ (k : nat) := List.nth (t - k) w 0 in
      extend m (w ++ [add32 (add32 (ssig1 (at_ 2%nat)) (at_ 7%nat))
                            (add32 (ssig0 (at_ 15%nat)) (at_ 16%nat))])
  end.

Definition round (st : list Z) (kw : Z * Z) : list Z :=
  match st with
  | [a; b; c; d; e; f; g; h] =>
      let t1 := add32 (add32 (add32 h (bsig1 e)) (add32 (ch e f g) (fst kw))) (snd kw) in
      let t2 := add32 (bsig0 a) (maj a b c) in
      [add32 t1 t2; a; b; c; add32 d t1; e; f; g]
  | _ => st
  end.

Definition compress (st : list Z) (blk : list Z) : list Z :=
  let w := extend 48 (words_of_block blk) in
  let st' := fold_left round (List.combine K256 w) st in
  List.map (fun xy => add32 (fst xy) (snd xy)) (List.combine st st').

Definition digest (msg : list Z) : list Z :=
  let p := pad msg in
  let blocks := groups 64 (List.length p / 64) p in
  List.concat (List.map (be_bytes 4) (fold_left compress blocks init256)).

End Sha256.

#[global] Instance byte_eq_decision : EqDecision byte := Byte.byte_eq_dec.

Definition byte_to_Z (b : byte) : Z := Z.of_N (Byte.to_N b).

Definition byte_of_Z (z : Z) : byte :=
  match Byte.of_N (Z.to_N z) with
  | Some b => b
  | None => x00
  end.

(** [sha256.New()], [h.Write(p)] and [h.Sum(nil)]: the state of the
    hash is the stream written so far. *)
Definition sha256_New : list byte := [].
Definition hash_Write (h : list byte) (p : list byte) : list byte := h ++ p.
Definition hash_Sum (h : list byte) : list byte :=
  List.map byte_of_Z (Sha256.digest (List.map byte_to_Z h)).

(** [fmt.Sprintf("%x", b)]: two lower-case hexadecimal digits a byte. *)
Definition hex_digit (n : N) : ascii :=
  if (n <? 10)%N then ascii_of_N (48 + n) else ascii_of_N (87 + n).

Fixpoint Sprintf_x (bs : list byte) : string :=
  match bs with
  | [] => EmptyString
  | b :: tl =>
      let n := Byte.to_N b in
      String (hex_digit (n / 16)) (String (hex_digit (n mod 16)) (Sprintf_x tl))
  end.

Definition sha256_hex (content : list byte) : string :=
  Sprintf_x (hash_Sum (hash_Write sha256_New content)).

(* ===================================================================== *)
(** ** regexp: anchored matching by derivatives *)
(* ===================================================================== *)

(** The fragment of [regexp] syntax the program uses: character classes
    given by ranges, concatenation, alternation and repetition.  A
    pattern written between [^] and [$] (no flags) matches a string
    exactly when the whole string is in its language. *)
Inductive regex : Type :=
| ReNone
| ReEmpty
| ReClass (ranges : list (ascii * ascii))
| ReCat (r1 r2 : regex)
| ReAlt (r1 r2 : regex)
| ReStar (r : regex).

Definition RePlus (r : regex) : regex := ReCat r (ReStar r).

Definition in_range (c : ascii) (lohi : ascii * ascii) : bool :=
  (N_of_ascii (fst lohi) <=? N_of_ascii c)%N && (N_of_ascii c <=? N_of_ascii (snd lohi))%N.

Definition in_class (ranges : list (ascii * ascii)) (c : ascii) : bool :=
  existsb (in_range c) ranges.

Fixpoint nullable (r : regex) : bool :=
  match r with
  | ReNone => false
  | ReEmpty => true
  | ReClass _ => false
  | ReCat r1 r2 => nullable r1 && nullable r2
  | ReAlt r1 r2 => nullable r1 || nullable r2
  | ReStar _ => true
  end.

Fixpoint deriv (c : ascii) (r : regex) : regex :=
  match r with
  | ReNone => ReNone
  | ReEmpty => ReNone
  | ReClass ranges => if in_class ranges c then ReEmpty else ReNone
  | ReCat r1 r2 =>
      if nullable r1
      then ReAlt (ReCat (deriv c r1) r2) (deriv c r2)
      else ReCat (deriv c r1) r2
  | ReAlt r1 r2 => ReAlt (deriv c r1) (deriv c r2)
  | ReStar r1 => ReCat (deriv c r1) (ReStar r1)
  end.

Fixpoint full_match (r : regex) (s : string) : bool :=
  match s with
  | EmptyString => nullable r
  | String c tl => full_match (deriv c r) tl
  end.

(** The language of a pattern, for the correctness of [full_match]. *)
Inductive re_lang : regex -> string -> Prop :=
| lang_empty : re_lang ReEmpty EmptyString
| lang_class ranges c :
    in_class ranges c = true -> re_lang (ReClass ranges) (String c EmptyString)
| lang_cat r1 r2 s1 s2 :
    re_lang r1 s1 -> re_lang r2 s2 -> re_lang (ReCat r1 r2) (s1 +:+ s2)
| lang_alt_l r1 r2 s : re_lang r1 s -> re_lang (ReAlt r1 r2) s
| lang_alt_r r1 r2 s : re_lang r2 s -> re_lang (ReAlt r1 r2) s
| lang_star_nil r : re_lang (ReStar r) EmptyString
| lang_star_cons r s1 s2 :
    re_lang r s1 -> re_lang (ReStar r) s2 -> re_lang (ReStar r) (s1 +:+ s2).

(** ["[A-Za-z0-9]"] and ["^[A-Za-z0-9]+$"]. *)
Definition alnum : list (ascii * ascii) :=
  [("A"%char, "Z"%char); ("a"%char, "z"%char); ("0"%char, "9"%char)].

Definition is_alnum : ascii -> bool := in_class alnum.

Fixpoint all_chars (p : ascii -> bool) (s : string) : bool :=
  match s with
  | EmptyString => true
  | String c tl => p c && all_chars p tl
  end.

(* ===================================================================== *)
(** ** Errors and results *)
(* ===================================================================== *)

Inductive errno : Type := ENOENT | EACCES | EISDIR | ENOSPC | EBADF.

(** A Go [error] value that is not nil: [*os.PathError] and
    [*os.LinkError] from package [os], [fmt.Errorf] and the errors of
    the libraries, which carry a message only. *)
Inductive error : Type :=
| PathError (op path : string) (e : errno)
| LinkError (op old new : string) (e : errno)
| Errorf (msg : string).

(** [os.IsNotExist]. *)
Definition os_IsNotExist (e : error) : bool :=
  match e with
  | PathError _ _ ENOENT => true
  | LinkError _ _ _ ENOENT => true
  | _ => false
  end.

Inductive result (A : Type) : Type :=
| Ok (a : A)
| Err (e : error)
| Panic (msg : string).
Arguments Ok {A} a.
Arguments Err {A} e.
Arguments Panic {A} msg.

(* ===================================================================== *)
(** ** Package mig: manifests and the bundle dictionary *)
(* ===================================================================== *)

(** [Object] is used by the loader and by the fetch endpoint
    ([mparam.Object], [manifestParam.Object]). *)
Record ManifestParameters : Type := {
  Operator : string;
  OS : string;
  Arch : string;
  Object : string;
}.

Record ManifestEntry : Type := {
  me_Name : string;
  me_SHA256 : string;
}.

Record ManifestResponse : Type := {
  Entries : list ManifestEntry;
}.

Record BundleDictionaryEntry : Type := {
  Name : string;
  Path : string;
  SHA256 : string;
}.

Definition pre : regex := RePlus (ReClass alnum).

Definition MatchString (r : regex) (s : string) : bool := full_match r s.

(** [ManifestParameters.Validate]: [None] is the nil error. *)
Definition Validate (m : ManifestParameters) : option error :=
  if (String.eqb (Operator m) "" || String.eqb (OS m) "" || String.eqb (Arch m) "")%bool
  then Some (Errorf "invalid manifest parameters")
  else if (negb (MatchString pre (Operator m)) || negb (MatchString pre (OS m))
           || negb (MatchString pre (Arch m)))%bool
  then Some (Errorf "bad characters in manifest parameters")
  else None.

(* ===================================================================== *)
(** ** The process and its environment *)
(* ===================================================================== *)

(** What a path names: a regular file with its content, a directory,
    or a file the process has no permission on. *)
Inductive node : Type :=
| File (content : list byte)
| Dir
| NoAccess (content : list byte).

Inductive event : Type :=
| Stderr (line : string)
| Log (desc : string)
| FsOpen (path : string)
| FsCreate (path : string)
| FsWrite (path : string) (data : list byte)
| FsRename (old new : string)
| NetPost (url : string) (p : ManifestParameters).

(** A Go slice of bundle entries: nil, or a reference to a backing
    array in the store.  The program never reslices, so a slice covers
    its whole array. *)
Inductive slice : Type :=
| nil_slice
| slice_of (base : nat).

(** The state a run threads through: the file system with its free
    space, the backing arrays of the slices, the loader's global
    [apiManifest] pointer, and what the process has done so far. *)
Record world : Type := mkWorld {
  files : gmap string node;
  free : nat;
  arrays : gmap nat (list BundleDictionaryEntry);
  apiManifest : option ManifestResponse;
  trace : list event;
}.

Definition set_files (f : gmap string node) (w : world) : world :=
  mkWorld f (free w) (arrays w) (apiManifest w) (trace w).
Definition set_free (n : nat) (w : world) : world :=
  mkWorld (files w) n (arrays w) (apiManifest w) (trace w).
Definition set_arrays (a : gmap nat (list BundleDictionaryEntry)) (w : world) : world :=
  mkWorld (files w) (free w) a (apiManifest w) (trace w).
Definition set_apiManifest (m : option ManifestResponse) (w : world) : world :=
  mkWorld (files w) (free w) (arrays w) m (trace w).
Definition emit (e : event) (w : world) : world :=
  mkWorld (files w) (free w) (arrays w) (apiManifest w) (trace w ++ [e]).

(** Computations: state passing with a [result]. *)
Definition M (A : Type) : Type := world -> world * result A.

Definition ret {A} (a : A) : M A := fun w => (w, Ok a).
Definition fail {A} (e : error) : M A := fun w => (w, Err e).
Definition panic {A} (msg : string) : M A := fun w => (w, Panic msg).

Definition bind {A B} (c : M A) (k : A -> M B) : M B :=
  fun w =>
    match c w with
    | (w', Ok a) => k a w'
    | (w', Err e) => (w', Err e)
    | (w', Panic msg) => (w', Panic msg)
    end.

Notation "'do' x <- c ; k" := (bind c (fun x => k))
  (at level 10, x name, c at level 100, k at level 200).
Notation "'do_' c ; k" := (bind c (fun _ => k))
  (at level 10, c at level 100, k at level 200).

Definition log (e : event) : M unit := fun w => (emit e w, Ok tt).

(** [fmt.Fprintf(os.Stderr, ...)]. *)
Definition Fprintf_Stderr (line : string) : M unit := log (Stderr line).

(** *** Package os *)

(** An open file: what is left to read, or the path it writes to. *)
Inductive fd : Type :=
| FdRead (path : string) (rest : list byte)
| FdDir (path : string)
| FdWrite (path : string).

(** [os.Open]. *)
Definition os_Open (path : string) : M fd :=
  do_ log (FsOpen path);
  fun w =>
    match files w !! path with
    | None => (w, Err (PathError "open" path ENOENT))
    | Some (File content) => (w, Ok (FdRead path content))
    | Some Dir => (w, Ok (FdDir path))
    | Some (NoAccess _) => (w, Err (PathError "open" path EACCES))
    end.

Inductive read_outcome : Type :=
| ReadN (p : list byte) (f : fd)
| ReadEOF
| ReadErr (e : error).

(** [fd.Read(buf)] with a buffer of [n] bytes: what was read and the
    descriptor afterwards, [io.EOF], or another error. *)
Definition fd_Read (f : fd) (n : nat) : read_outcome :=
  match f with
  | FdRead path [] => ReadEOF
  | FdRead path rest => ReadN (firstn n rest) (FdRead path (skipn n rest))
  | FdDir path => ReadErr (PathError "read" path EISDIR)
  | FdWrite path => ReadErr (PathError "read" path EBADF)
  end.

(** [os.OpenFile(path, os.O_CREATE|os.O_TRUNC|os.O_WRONLY, 0700)]. *)
Definition os_OpenFile_trunc (path : string) : M fd :=
  do_ log (FsCreate path);
  fun w =>
    match files w !! path with
    | None => (set_files (<[path := File []]> (files w)) w, Ok (FdWrite path))
    | Some (File content) =>
        (set_free (free w + length content)
           (set_files (<[path := File []]> (files w)) w), Ok (FdWrite path))
    | Some Dir => (w, Err (PathError "open" path EISDIR))
    | Some (NoAccess _) => (w, Err (PathError "open" path EACCES))
    end.

(** [fd.Write(p)] on a file just truncated: all of [p], or what the
    free space takes and [ENOSPC]. *)
Definition fd_Write (f : fd) (p : list byte) : M nat :=
  match f with
  | FdWrite path =>
      do_ log (FsWrite path p);
      fun w =>
        if decide (length p <= free w)
        then (set_free (free w - length p)
                (set_files (<[path := File p]> (files w)) w), Ok (length p))
        else (set_free 0
                (set_files (<[path := File (firstn (free w) p)]> (files w)) w),
              Err (PathError "write" path ENOSPC))
  | FdRead path _ | FdDir path => fail (PathError "write" path EBADF)
  end.

Definition node_size (n : option node) : nat :=
  match n with
  | Some (File c) | Some (NoAccess c) => length c
  | _ => 0
  end.

(** [os.Rename]: a file replaces a file; it does not replace a
    directory. *)
Definition os_Rename (old new : string) : M unit :=
  do_ log (FsRename old new);
  fun w =>
    match files w !! old with
    | None => (w, Err (LinkError "rename" old new ENOENT))
    | Some n =>
        if decide (old = new) then (w, Ok tt)
        else match files w !! new, n with
             | Some Dir, (File _ | NoAccess _) =>
                 (w, Err (LinkError "rename" old new EISDIR))
             | tgt, _ =>
                 (set_free (free w + node_size tgt)
                    (set_files (<[new := n]> (delete old (files w))) w), Ok tt)
             end
    end.

(** The read loop the three functions share:
    [for { n, err := fd.Read(buf); if err != nil { if err == io.EOF
    { break }; fd.Close(); return nil, err }; if n > 0 { ... } }]
    with [step] as the body under [n > 0].  A descriptor on a regular
    file is at end of file after at most as many reads as it has bytes
    left, which bounds the iterations ([fd_fuel]). *)
Fixpoint read_loop {S : Type} (fuel : nat) (bufsize : nat)
    (step : S -> list byte -> result S) (f : fd) (s : S) : result S :=
  match fuel with
  | O => Panic "read loop: iteration bound exceeded"
  | Datatypes.S fuel' =>
      match fd_Read f bufsize with
      | ReadErr e => Err e
      | ReadEOF => Ok s
      | ReadN p f' =>
          if (0 <? length p)%nat
          then match step s p with
               | Ok s' => read_loop fuel' bufsize step f' s'
               | other => other
               end
          else read_loop fuel' bufsize step f' s
      end
  end.

Definition fd_fuel (f : fd) : nat :=
  match f with
  | FdRead _ rest => Datatypes.S (length rest)
  | _ => 1
  end.

(** The loop whose body is [h.Write(buf[:n])]. *)
Definition hash_stream (f : fd) (h : list byte) : result (list byte) :=
  read_loop (fd_fuel f) 4096 (fun h p => Ok (hash_Write h p)) f h.

(** [ioutil.ReadAll]. *)
Definition ioutil_ReadAll (f : fd) : result (list byte) :=
  read_loop (fd_fuel f) 512 (fun acc p => Ok (acc ++ p)) f [].

(** *** Build constants and libraries *)

Class Runtime : Type := {
  GOOS : string;
  GOARCH : string;
}.

(** [compress/gzip]: a writer over a [bytes.Buffer] (whose writes do
    not fail): [gz_Close] gives the buffer's bytes once the writer is
    closed; and a reader drained by [ioutil.ReadAll] ([gunzip]). *)
Class Gzip : Type := {
  gz_writer : Type;
  gzip_NewWriter : gz_writer;
  gz_Write : gz_writer -> list byte -> gz_writer;
  gz_Close : gz_writer -> list byte;
  gunzip : list byte -> result (list byte);
}.

(** The library's contract: what was written, in whatever pieces, is
    what is read back from the closed writer's output. *)
Definition gzip_contract (G : Gzip) : Prop :=
  forall pieces : list (list byte),
    gunzip (gz_Close (fold_left gz_Write pieces gzip_NewWriter))
    = Ok (List.concat pieces).

(** [encoding/json]: decoding a manifest document. *)
Class Json : Type := {
  json_Unmarshal : list byte -> error + ManifestResponse;
}.

(** *** The bundle dictionary *)

Definition entry_agent : BundleDictionaryEntry :=
  {| Name := "agent"; Path := "/sbin/mig-agent"; SHA256 := "" |}.
Definition entry_configuration : BundleDictionaryEntry :=
  {| Name := "configuration"; Path := "/etc/mig/mig-agent.cfg"; SHA256 := "" |}.

(** [var bundleEntryLinux = []BundleDictionaryEntry{...}]: the slice
    refers to backing array 0, which holds the two templates when the
    process starts. *)
Definition bundleEntryLinux : slice := slice_of 0.

Definition startup_arrays : gmap nat (list BundleDictionaryEntry) :=
  {[ 0%nat := [entry_agent; entry_configuration] ]}.

Definition BundleDictionary : gmap string slice :=
  {[ "linux" := bundleEntryLinux ]}.

(** The elements a slice gives access to. *)
Definition elems (s : slice) (w : world) : list BundleDictionaryEntry :=
  match s with
  | nil_slice => []
  | slice_of b => default [] (arrays w !! b)
  end.

(** [s[i]] *)
Definition index (s : slice) (i : nat) : M BundleDictionaryEntry :=
  fun w =>
    match elems s w !! i with
    | Some e => (w, Ok e)
    | None => (w, Panic "index out of range")
    end.

Definition with_SHA256 (v : string) (e : BundleDictionaryEntry) : BundleDictionaryEntry :=
  {| Name := Name e; Path := Path e; SHA256 := v |}.

(** [s[i].SHA256 = v]: a write into the backing array. *)
Definition assign_SHA256 (s : slice) (i : nat) (v : string) : M unit :=
  fun w =>
    match s with
    | slice_of b =>
        match arrays w !! b with
        | Some es =>
            if decide (i < length es)
            then (set_arrays (<[b := alter (with_SHA256 v) i es]> (arrays w)) w, Ok tt)
            else (w, Panic "index out of range")
        | None => (w, Panic "index out of range")
        end
    | nil_slice => (w, Panic "index out of range")
    end.

Definition GetHostBundle `{Runtime} : M slice :=
  if String.eqb GOOS "linux" then ret bundleEntryLinux
  else fail (Errorf ("GetHostBundle() -> no entry for " +:+ GOOS +:+ " in bundle dictionary")).

(** The body of [for i := range ret] in [HashBundle], over the indices
    still to visit.  [ret := b] copies the slice header: [ret] and [b]
    are the same reference. *)
Fixpoint HashBundle_range (ret_ : slice) (todo : list nat) : M slice :=
  match todo with
  | [] => ret ret_
  | i :: todo' =>
      do e <- index ret_ i;
      fun w =>
        match os_Open (Path e) w with
        | (w1, Err err) =>
            if os_IsNotExist err then HashBundle_range ret_ todo' w1
            else (w1, Err err)
        | (w1, Panic msg) => (w1, Panic msg)
        | (w1, Ok fd) =>
            match hash_stream fd sha256_New with
            | Err err => (w1, Err err)
            | Panic msg => (w1, Panic msg)
            | Ok h =>
                (do_ assign_SHA256 ret_ i (Sprintf_x (hash_Sum h));
                 HashBundle_range ret_ todo') w1
            end
        end
  end.

Definition HashBundle (b : slice) : M slice :=
  fun w => HashBundle_range b (seq 0 (length (elems b w))) w.

(* ===================================================================== *)
(** ** Package path *)
(* ===================================================================== *)

(** The elements between the slashes of a path. *)
Fixpoint components (s : string) : list string :=
  match s with
  | EmptyString => [EmptyString]
  | String c tl =>
      match components tl with
      | hd :: rest =>
          if Ascii.eqb c "/" then EmptyString :: hd :: rest
          else String c hd :: rest
      | [] => [String c EmptyString]
      end
  end.

Fixpoint join_slash (elems : list string) : string :=
  match elems with
  | [] => EmptyString
  | [e] => e
  | e :: tl => e +:+ "/" +:+ join_slash tl
  end.

(** One element of [path.Clean]'s scan, on the elements kept so far
    (last kept first): empty and [.] elements are dropped, [..] removes
    the element before it, stays at the root of a rooted path, and is
    kept at the start of a path that is not rooted. *)
Definition clean_step (rooted : bool) (kept : list string) (elem : string)
  : list string :=
  if (String.eqb elem "" || String.eqb elem ".")%bool then kept
  else if String.eqb elem ".." then
    match kept with
    | top :: below =>
        if String.eqb top ".." then ".." :: kept else below
    | [] => if rooted then [] else [".."]
    end
  else elem :: kept.

Definition is_rooted (s : string) : bool :=
  match s with
  | String c _ => Ascii.eqb c "/"
  | EmptyString => false
  end.

(** [path.Clean]. *)
Definition path_Clean (s : string) : string :=
  let rooted := is_rooted s in
  let kept := rev (fold_left (clean_step rooted) (components s) []) in
  if rooted then "/" +:+ join_slash kept
  else match kept with
       | [] => "."
       | _ => join_slash kept
       end.

(** [path.Join]: the elements from the first non-empty one on, joined
    with slashes and cleaned. *)
Fixpoint path_Join (elem : list string) : string :=
  match elem with
  | [] => EmptyString
  | e :: tl =>
      if String.eqb e "" then path_Join tl
      else path_Clean (join_slash (e :: tl))
  end.

(* ===================================================================== *)
(** ** The API: manifest endpoints *)
(* ===================================================================== *)

Definition lift {A} (r : result A) : M A := fun w => (w, r).

(** [ctx.Manifest.Path]. *)
Record context : Type := {
  Manifest_Path : string;
}.

Definition manifestLoad `{Json} (path : string) : M ManifestResponse :=
  do fd <- os_Open path;
  do buf <- lift (ioutil_ReadAll fd);
  match json_Unmarshal buf with
  | inr ret_ => ret ret_
  | inl err => fail err
  end.

Definition manifestRoot `{Json} (ctx : context) (p : ManifestParameters)
  : M (string * ManifestResponse) :=
  let proot := path_Join [Manifest_Path ctx; Operator p; Arch p; OS p] in
  let psecondary := path_Join [Manifest_Path ctx; "default"; Arch p; OS p] in
  let primary := path_Join [proot; "manifest.json"] in
  let secondary := path_Join [psecondary; "manifest.json"] in
  fun w =>
    match manifestLoad primary w with
    | (w1, Ok m) => (w1, Ok (proot, m))
    | (w1, Panic msg) => (w1, Panic msg)
    | (w1, Err _) =>
        match manifestLoad secondary w1 with
        | (w2, Ok m) => (w2, Ok (psecondary, m))
        | (w2, Panic msg) => (w2, Panic msg)
        | (w2, Err _) => (w2, Err (Errorf "unable to locate manifest"))
        end
    end.

(** [loadContent]: the loop feeds both the hash and the gzip writer.
    The writer sits on a [bytes.Buffer], so that [gz.Write] returns no
    error and the branch that tests it is never taken. *)
Definition loadContent `{Gzip} (path sig : string) : M (list byte) :=
  fun w =>
    match os_Open path w with
    | (w1, Err _) => (w1, Err (Errorf "unable to load manifest object"))
    | (w1, Panic msg) => (w1, Panic msg)
    | (w1, Ok fd) =>
        match read_loop (fd_fuel fd) 4096
                (fun hz p => Ok (hash_Write (fst hz) p, gz_Write (snd hz) p))
                fd (sha256_New, gzip_NewWriter) with
        | Err e => (w1, Err e)
        | Panic msg => (w1, Panic msg)
        | Ok (h, gz) =>
            let b := gz_Close gz in
            let vsig := Sprintf_x (hash_Sum h) in
            if negb (String.eqb vsig sig)
            then (w1, Err (Errorf "manifest signature did not match file"))
            else (w1, Ok b)
        end
    end.

Definition errno_text (e : errno) : string :=
  match e with
  | ENOENT => "no such file or directory"
  | EACCES => "permission denied"
  | EISDIR => "is a directory"
  | ENOSPC => "no space left on device"
  | EBADF => "bad file descriptor"
  end.

(** [err.Error()], which is what ["%v"] prints. *)
Definition Error (e : error) : string :=
  match e with
  | PathError op path en => op +:+ " " +:+ path +:+ ": " +:+ errno_text en
  | LinkError op old new en =>
      op +:+ " " +:+ old +:+ " " +:+ new +:+ ": " +:+ errno_text en
  | Errorf msg => msg
  end.

(** A request as the handler sees it: the form did not parse, or the
    outcome of [json.Unmarshal] on its ["parameters"] field. *)
Inductive request : Type :=
| BadForm (e : error)
| Form (parameters : result ManifestParameters).

(** What [respond] sends: the status code and the resource, which holds
    an error or the item added to it. *)
Inductive resource : Type :=
| ResError (message : string)
| ResManifest (m : ManifestResponse).

Definition response : Type := nat * resource.

(** The body of [getAgentManifest] up to [respond(200, ...)]; each
    [panic(err)] of the source is a [Panic] with the error's text.
    [resource.AddItem] takes the item built here without error. *)
Definition getAgentManifest_body `{Json} (ctx : context) (req : request)
  : M ManifestResponse :=
  match req with
  | BadForm e => panic (Error e)
  | Form (Err e) => panic (Error e)
  | Form (Panic msg) => panic msg
  | Form (Ok manifestParam) =>
      match Validate manifestParam with
      | Some err => panic (Error err)
      | None =>
          do_ log (Log "Received manifest request");
          fun w =>
            match manifestRoot ctx manifestParam w with
            | (w1, Ok (_, m)) => (w1, Ok m)
            | (w1, Err err) => (w1, Panic (Error err))
            | (w1, Panic msg) => (w1, Panic msg)
            end
      end
  end.

(** [getAgentManifest]: the deferred function turns a panic into a 500
    response that carries its text, and logs the exit. *)
Definition getAgentManifest `{Json} (ctx : context) (req : request)
  : world -> world * response :=
  fun w =>
    let recovered (msg : string) (w1 : world) : world * response :=
      (emit (Log "leaving getAgentManifest()") (emit (Log msg) w1),
       (500, ResError msg)) in
    match getAgentManifest_body ctx req w with
    | (w1, Ok m) =>
        (emit (Log "leaving getAgentManifest()") w1, (200, ResManifest m))
    | (w1, Panic msg) => recovered msg w1
    | (w1, Err e) => recovered (Error e) w1
    end.

(* ===================================================================== *)
(** ** The loader *)
(* ===================================================================== *)

(** What comes back from a POST to the API, as far as the loader looks
    at it: the request, the body or its decoding failed; the resource
    has no item (or its first item no data), so that
    [resource.Collection.Items[0].Data[0]] panics; the first value did
    not convert; or the converted value. *)
Inductive reply (A : Type) : Type :=
| ReplyError (e : error)
| ReplyNoItem
| ReplyBadValue (e : error)
| ReplyValue (a : A).
Arguments ReplyError {A} e.
Arguments ReplyNoItem {A}.
Arguments ReplyBadValue {A} e.
Arguments ReplyValue {A} a.

(** The loader's build-time configuration and the API it talks to. *)
Class Remote : Type := {
  APIURL : string;
  TAGS_Operator : string;
  post_manifest : ManifestParameters -> reply ManifestResponse;
  post_fetch : ManifestParameters -> reply (list byte);
}.

Definition initializeHaveBundle `{Runtime} : M slice :=
  do ret_ <- GetHostBundle;
  do ret_ <- HashBundle ret_;
  do_ Fprintf_Stderr "initializeHaveBundle() -> Initialized";
  fun w =>
    (fold_left
       (fun w x => emit (Stderr (Name x +:+ " " +:+ Path x +:+ " -> " +:+ SHA256 x)) w)
       (elems ret_ w) w,
     Ok ret_).

Definition requestManifest `{Runtime} `{Remote} : M unit :=
  let murl := APIURL +:+ "manifest" in
  do_ Fprintf_Stderr ("requestManifest() -> requesting manifest from " +:+ murl);
  let mparam :=
    {| OS := GOOS; Arch := GOARCH;
       Operator := if String.eqb TAGS_Operator "" then "default" else TAGS_Operator;
       Object := "" |} in
  do_ log (NetPost murl mparam);
  match post_manifest mparam with
  | ReplyError e => fail e
  | ReplyNoItem => panic "index out of range"
  | ReplyBadValue e => fail e
  | ReplyValue manifest =>
      fun w => (set_apiManifest (Some manifest) w, Ok tt)
  end.

Definition fetchFile `{Runtime} `{Remote} `{Gzip} (n : string) : M (list byte) :=
  let murl := APIURL +:+ "manifest/fetch" in
  let mparam :=
    {| OS := GOOS; Arch := GOARCH; Operator := TAGS_Operator; Object := n |} in
  do_ log (NetPost murl mparam);
  match post_fetch mparam with
  | ReplyError e => fail e
  | ReplyNoItem => panic "index out of range"
  | ReplyBadValue e => fail e
  | ReplyValue data => lift (gunzip data)
  end.

Definition fetchAndReplace `{Runtime} `{Remote} `{Gzip}
    (entry : BundleDictionaryEntry) (sig : string) : M unit :=
  do filebuf <- fetchFile (Name entry);
  let reppath := Path entry +:+ ".loader" in
  do fd <- os_OpenFile_trunc reppath;
  do_ fd_Write fd filebuf;
  let h := sha256_New in
  do fd <- os_Open reppath;
  do h <- lift (hash_stream fd h);
  if negb (String.eqb sig (Sprintf_x (hash_Sum h)))
  then fail (Errorf "staged file signature mismatch")
  else
    (* err = os.Rename(reppath, entry.Path); return nil *)
    fun w => let (w', err) := os_Rename reppath (Path entry) w in (w', Ok tt).

Definition checkEntry `{Runtime} `{Remote} `{Gzip} (entry : BundleDictionaryEntry)
  : M unit :=
  do_ Fprintf_Stderr ("checkEntry() -> Comparing " +:+ Name entry +:+ " " +:+ Path entry);
  fun w =>
    match apiManifest w with
    | None => (w, Panic "invalid memory address or nil pointer dereference")
    | Some manifest =>
        match find (fun x => String.eqb (me_Name x) (Name entry)) (Entries manifest) with
        | None =>
            (do_ Fprintf_Stderr "checkEntry() -> entry not in manifest, ignoring";
             ret tt) w
        | Some compare =>
            (do_ Fprintf_Stderr ("checkEntry() -> We have " +:+ SHA256 entry);
             do_ Fprintf_Stderr ("checkEntry() -> API has " +:+ me_SHA256 compare);
             do_ (if String.eqb (SHA256 entry) (me_SHA256 compare)
                  then Fprintf_Stderr "checkEntry() -> Nothing to do here..."
                       (* //return nil *)
                  else ret tt);
             do_ Fprintf_Stderr ("checkEntry() -> refreshing " +:+ Name entry);
             fetchAndReplace entry (me_SHA256 compare)) w
        end
    end.

(** [for _, x := range have { ... }], over the indices still to visit. *)
Fixpoint compareManifest_range `{Runtime} `{Remote} `{Gzip}
    (have : slice) (todo : list nat) : M unit :=
  match todo with
  | [] => ret tt
  | i :: todo' =>
      do x <- index have i;
      do_ checkEntry x;
      compareManifest_range have todo'
  end.

Definition compareManifest `{Runtime} `{Remote} `{Gzip} (have : slice) : M unit :=
  fun w => compareManifest_range have (seq 0 (length (elems have w))) w.

(** [main], with the exit status of the process: 0 at the end of
    [main], 1 from [os.Exit(1)], 2 after a panic. *)
Definition main `{Runtime} `{Remote} `{Gzip} : world -> world * nat :=
  fun w =>
    let exit1 (e : error) (w1 : world) : world * nat :=
      (emit (Stderr ("main() -> " +:+ Error e)) w1, 1) in
    match initializeHaveBundle w with
    | (w1, Err e) => exit1 e w1
    | (w1, Panic _) => (w1, 2)
    | (w1, Ok have) =>
        match requestManifest w1 with
        | (w2, Err e) => exit1 e w2
        | (w2, Panic _) => (w2, 2)
        | (w2, Ok _) =>
            match compareManifest have w2 with
            | (w3, Err e) => exit1 e w3
            | (w3, Panic _) => (w3, 2)
            | (w3, Ok _) => (w3, 0)
            end
        end
    end.

(* ===================================================================== *)
(** ** Instances to run the program on *)
(* ===================================================================== *)

Definition linux_amd64 : Runtime := {| GOOS := "linux"; GOARCH := "amd64" |}.
Definition plan9_386 : Runtime := {| GOOS := "plan9"; GOARCH := "386" |}.

(** A gzip codec (RFC 1952) whose writer emits stored DEFLATE blocks
    (RFC 1951, section 3.2.4) and whose reader takes what that writer
    emits: the ten-byte header, blocks of at most 65535 bytes, the
    CRC-32 and the length of the data. *)
Module StoredGzip.
Local Open Scope N_scope.

Definition byte_of_N (n : N) : byte :=
  match Byte.of_N (n mod 256) with
  | Some b => b
  | None => x00
  end.

Fixpoint le_bytes (n : nat) (v : N) : list byte :=
  match n with
  | O => []
  | S m => byte_of_N v :: le_bytes m (v / 256)
  end.

Fixpoint le_value (bs : list byte) : N :=
  match bs with
  | [] => 0
  | b :: tl => Byte.to_N b + 256 * le_value tl
  end.

Fixpoint crc_bits (k : nat) (c : N) : N :=
  match k with
  | O => c
  | S k' =>
      crc_bits k' (if N.odd c then N.lxor (N.shiftr c 1) 3988292384
                   else N.shiftr c 1)
  end.

Definition crc_byte (c : N) (b : byte) : N :=
  crc_bits 8 (N.lxor c (Byte.to_N b)).

Definition crc32 (data : list byte) : N :=
  N.lxor (fold_left crc_byte data 4294967295) 4294967295 mod 2 ^ 32.

Definition header : list byte :=
  [x1f; x8b; x08; x00; x00; x00; x00; x00; x00; xff].

Definition block_max : nat := N.to_nat 65535.

Fixpoint deflate_stored (fuel : nat) (data : list byte) : list byte :=
  match fuel with
  | O => []
  | S fuel' =>
      if (length data <=? block_max)%nat
      then x01 :: le_bytes 2 (N.of_nat (length data))
               ++ le_bytes 2 (65535 - N.of_nat (length data)) ++ data
      else x00 :: le_bytes 2 65535 ++ le_bytes 2 0
               ++ firstn block_max data
               ++ deflate_stored fuel' (skipn block_max data)
  end.

Definition compress (data : list byte) : list byte :=
  header ++ deflate_stored (S (length data)) data
         ++ le_bytes 4 (crc32 data)
         ++ le_bytes 4 (N.of_nat (length data) mod 2 ^ 32).

(** The data of the blocks at the head of [input], and what follows
    the final block. *)
Fixpoint inflate_stored (fuel : nat) (input : list byte)
  : option (list byte * list byte) :=
  match fuel with
  | O => None
  | S fuel' =>
      match input with
      | hd :: l0 :: l1 :: n0 :: n1 :: tl =>
          let len := le_value [l0; l1] in
          let nlen := le_value [n0; n1] in
          if (N.land (Byte.to_N hd) 6 =? 0) && (len + nlen =? 65535)
             && (N.to_nat len <=? length tl)%nat
          then
            let blk := firstn (N.to_nat len) tl in
            let rest := skipn (N.to_nat len) tl in
            if N.odd (Byte.to_N hd) then Some (blk, rest)
            else match inflate_stored fuel' rest with
                 | Some (data, rest') => Some (blk ++ data, rest')
                 | None => None
                 end
          else None
      | _ => None
      end
  end.

Definition decompress (input : list byte) : result (list byte) :=
  match input with
  | id1 :: id2 :: cm :: flg :: _ :: _ :: _ :: _ :: _ :: _ :: body =>
      if (Byte.to_N id1 =? 31) && (Byte.to_N id2 =? 139)
         && (Byte.to_N cm =? 8) && (Byte.to_N flg =? 0)
      then
        match inflate_stored (length body) body with
        | Some (data, trailer) =>
            if (length trailer =? 8)%nat
               && (le_value (firstn 4 trailer) =? crc32 data)
               && (le_value (skipn 4 trailer) =? N.of_nat (length data) mod 2 ^ 32)
            then Ok data
            else Err (Errorf "gzip: invalid checksum")
        | None => Err (Errorf "flate: corrupt input")
        end
      else Err (Errorf "gzip: invalid header")
  | _ => Err (Errorf "unexpected EOF")
  end.

End StoredGzip.

Definition stored_gzip : Gzip := {|
  gz_writer := list byte;
  gzip_NewWriter := [];
  gz_Write := fun z p => z ++ p;
  gz_Close := StoredGzip.compress;
  gunzip := StoredGzip.decompress;
|}.

(** A decoder given by the documents it knows. *)
Fixpoint lookup_document (docs : list (list byte * ManifestResponse))
    (buf : list byte) : error + ManifestResponse :=
  match docs with
  | [] => inl (Errorf "invalid character looking for beginning of value")
  | (doc, m) :: tl =>
      if decide (doc = buf) then inr m else lookup_document tl buf
  end.

Definition json_table (docs : list (list byte * ManifestResponse)) : Json :=
  {| json_Unmarshal := lookup_document docs |}.


(* ===================================================================== *)
(** ** Vocabulary of the statements *)
(* ===================================================================== *)

(** A parameter that is empty or holds a character outside
    [[A-Za-z0-9]].  Characters are bytes: a rune outside ASCII is made
    of bytes above 127, none of which is a letter or a digit. *)
Definition bad_parameter (s : string) : Prop :=
  s = "" \/ exists c, In c (list_ascii_of_string s) /\ is_alnum c = false.

(** The events that touch the file system. *)
Definition is_fs_event (e : event) : bool :=
  match e with
  | FsOpen _ | FsCreate _ | FsWrite _ _ | FsRename _ _ => true
  | _ => false
  end.

(** The events that change it. *)
Definition is_write_event (e : event) : bool :=
  match e with
  | FsCreate _ | FsWrite _ _ | FsRename _ _ => true
  | _ => false
  end.

Definition etc_request : ManifestParameters :=
  {| Operator := "../../etc"; OS := "linux"; Arch := "amd64"; Object := "" |}.

(** *** An API host *)

Definition quote : string := String (Ascii.ascii_of_nat 34) EmptyString.
Definition quoted (s : string) : string := quote +:+ s +:+ quote.

Definition agent_v1 : list byte := list_byte_of_string "mig-agent 1.0".
Definition agent_v2 : list byte := list_byte_of_string "mig-agent 2.0".
Definition agent_cfg : list byte := list_byte_of_string "[agent] relay = amqp".

Definition agent_v1_digest : string := Eval vm_compute in sha256_hex agent_v1.
Definition agent_v2_digest : string := Eval vm_compute in sha256_hex agent_v2.
Definition agent_cfg_digest : string := Eval vm_compute in sha256_hex agent_cfg.

Definition manifest_default : ManifestResponse :=
  {| Entries := [ {| me_Name := "agent"; me_SHA256 := agent_v2_digest |};
                  {| me_Name := "configuration"; me_SHA256 := agent_cfg_digest |} ] |}.

Definition manifest_acme : ManifestResponse :=
  {| Entries := [ {| me_Name := "agent"; me_SHA256 := agent_v1_digest |} ] |}.

Definition document (m : ManifestResponse) : list byte :=
  list_byte_of_string
    ("{" +:+ quoted "entries" +:+ ":["
     +:+ join_slash
           (List.map (fun e => "{" +:+ quoted "name" +:+ ":" +:+ quoted (me_Name e)
                               +:+ "," +:+ quoted "sha256" +:+ ":"
                               +:+ quoted (me_SHA256 e) +:+ "}")
                     (Entries m))
     +:+ "]}").

Definition json_example : Json :=
  json_table [ (document manifest_default, manifest_default);
               (document manifest_acme, manifest_acme) ].

Definition api_ctx : context := {| Manifest_Path := "/var/cache/mig" |}.

(** Only the default tier has a manifest. *)
Definition api_files : gmap string node :=
  {[ "/var/cache/mig/default/amd64/linux/manifest.json" := File (document manifest_default);
     "/var/cache/mig/default/amd64/linux/files/agent" := File agent_v2;
     "/var/cache/mig/default/amd64/linux/files/configuration" := File agent_cfg ]}.

Definition api_world : world := mkWorld api_files 0 ∅ None [].

Definition acme_request : ManifestParameters :=
  {| Operator := "acme"; OS := "linux"; Arch := "amd64"; Object := "" |}.

(** What [HashBundle] makes of an entry whose file can be read or is
    absent. *)
Definition hashed (fs : gmap string node) (e : BundleDictionaryEntry)
  : BundleDictionaryEntry :=
  match fs !! Path e with
  | Some (File content) => with_SHA256 (sha256_hex content) e
  | _ => e
  end.

(** The file of an entry is absent or a regular file. *)
Definition readable (fs : gmap string node) (e : BundleDictionaryEntry) : Prop :=
  fs !! Path e = None \/ exists content, fs !! Path e = Some (File content).

(** Opening or reading the file of an entry fails, and not because the
    file is absent. *)
Definition unreadable (fs : gmap string node) (e : BundleDictionaryEntry) : Prop :=
  fs !! Path e = Some Dir \/ exists content, fs !! Path e = Some (NoAccess content).

(** The world after [HashBundle] has gone through the entries [seen]
    of the array at [base], leaving it as [cur]. *)
Definition hashed_world (base : nat) (w : world)
    (cur seen : list BundleDictionaryEntry) : world :=
  mkWorld (files w) (free w) (<[base := cur]> (arrays w)) (apiManifest w)
          (trace w ++ List.map (fun e => FsOpen (Path e)) seen).

(** The error that ends the snapshot at an entry that is [unreadable]. *)
Definition snapshot_error (fs : gmap string node) (e : BundleDictionaryEntry) : error :=
  match fs !! Path e with
  | Some Dir => PathError "read" (Path e) EISDIR
  | _ => PathError "open" (Path e) EACCES
  end.

(** *** A host of the loader *)

(** The process at startup on a host where the agent is installed and
    its configuration is not. *)
Definition host_files : gmap string node :=
  {[ "/sbin/mig-agent" := File agent_v1 ]}.

Definition host_world : world := mkWorld host_files 4096 startup_arrays None [].

(** A list that carries the digest of an earlier snapshot, on a host
    where the agent is no longer there. *)
Definition stale_entry : BundleDictionaryEntry :=
  {| Name := "agent"; Path := "/sbin/mig-agent"; SHA256 := agent_v1_digest |}.

Definition stale_world : world :=
  mkWorld ∅ 4096 {[ 0%nat := [stale_entry] ]} None [].

(** A host where the configuration path is a directory. *)
Definition broken_world : world :=
  mkWorld (<[ "/etc/mig/mig-agent.cfg" := Dir ]> host_files) 4096 startup_arrays None [].

(** The request [fetchFile] posts for an object, and where. *)
Definition fetch_params `{Runtime} `{Remote} (n : string) : ManifestParameters :=
  {| OS := GOOS; Arch := GOARCH; Operator := TAGS_Operator; Object := n |}.

Definition fetch_url `{Remote} : string := APIURL +:+ "manifest/fetch".

(** The staging path of an entry. *)
Definition staging_path (entry : BundleDictionaryEntry) : string :=
  Path entry +:+ ".loader".

(** The world once [fetchAndReplace] has fetched [filebuf] for an entry
    and written it to the staging path, and has opened the staged file
    to hash it. *)
Definition staged `{Runtime} `{Remote} (entry : BundleDictionaryEntry)
    (filebuf : list byte) (w : world) : world :=
  mkWorld (<[staging_path entry := File filebuf]> (files w))
          (free w + node_size (files w !! staging_path entry) - length filebuf)
          (arrays w) (apiManifest w)
          (trace w ++ [NetPost fetch_url (fetch_params (Name entry));
                       FsCreate (staging_path entry);
                       FsWrite (staging_path entry) filebuf;
                       FsOpen (staging_path entry)]).

(** The staging path can be created or truncated, and there is room
    for [filebuf]. *)
Definition can_stage (entry : BundleDictionaryEntry) (filebuf : list byte)
    (w : world) : Prop :=
  (files w !! staging_path entry = None
   \/ exists old, files w !! staging_path entry = Some (File old))
  /\ length filebuf <= free w + node_size (files w !! staging_path entry).

Definition is_rename_event (e : event) : bool :=
  match e with
  | FsRename _ _ => true
  | _ => false
  end.

(** *** Two APIs *)

(** An API that serves the default manifest and the files it lists. *)
Definition good_remote : Remote := {|
  APIURL := "https://api.mig.example.net/api/v1/";
  TAGS_Operator := "acme";
  post_manifest := fun _ => ReplyValue manifest_default;
  post_fetch := fun p =>
    if String.eqb (Object p) "agent" then ReplyValue (StoredGzip.compress agent_v2)
    else if String.eqb (Object p) "configuration"
    then ReplyValue (StoredGzip.compress agent_cfg)
    else ReplyNoItem;
|}.

(** The same, but what arrives for the agent is not the agent of the
    manifest. *)
Definition tampered_remote : Remote := {|
  APIURL := "https://api.mig.example.net/api/v1/";
  TAGS_Operator := "acme";
  post_manifest := fun _ => ReplyValue manifest_default;
  post_fetch := fun p =>
    if String.eqb (Object p) "agent"
    then ReplyValue (StoredGzip.compress (list_byte_of_string "not the agent"))
    else if String.eqb (Object p) "configuration"
    then ReplyValue (StoredGzip.compress agent_cfg)
    else ReplyNoItem;
|}.

(** A host whose agent and configuration are those of the default
    manifest. *)
Definition current_files : gmap string node :=
  {[ "/sbin/mig-agent" := File agent_v2;
     "/etc/mig/mig-agent.cfg" := File agent_cfg ]}.

Definition current_world : world := mkWorld current_files 4096 startup_arrays None [].

(** A host where the agent's path is a directory. *)
Definition agent_dir_world : world :=
  mkWorld {[ "/sbin/mig-agent" := Dir ]} 4096 startup_arrays (Some manifest_default) [].

(** From [w] to [w'] the process has kept its slices and its manifest
    pointer, and has only added to its trace. *)
Definition extends (w w' : world) : Prop :=
  arrays w' = arrays w
  /\ apiManifest w' = apiManifest w
  /\ exists more, trace w' = trace w ++ more.

Definition grows {A} (c : M A) : Prop :=
  forall w, extends w (fst (c w)).

(** [checkEntry] has been called on [x]. *)
Definition compared (x : BundleDictionaryEntry) (w : world) : Prop :=
  In (Stderr ("checkEntry() -> Comparing " +:+ Name x +:+ " " +:+ Path x)) (trace w).

(** The lines [checkEntry] prints before it refreshes an entry whose
    digest is the manifest's. *)
Definition nothing_to_do_lines (entry : BundleDictionaryEntry) : list event :=
  [ Stderr ("checkEntry() -> Comparing " +:+ Name entry +:+ " " +:+ Path entry);
    Stderr ("checkEntry() -> We have " +:+ SHA256 entry);
    Stderr ("checkEntry() -> API has " +:+ SHA256 entry);
    Stderr "checkEntry() -> Nothing to do here...";
    Stderr ("checkEntry() -> refreshing " +:+ Name entry) ].

Definition add_trace (es : list event) (w : world) : world :=
  mkWorld (files w) (free w) (arrays w) (apiManifest w) (trace w ++ es).

(** The process starts again on the files a run has left. *)
Definition restart (w : world) : world :=
  mkWorld (files w) (free w) startup_arrays None (trace w).

(** The hosts above once the snapshot is taken and the manifest has
    arrived. *)
Definition have_agent_v1 : BundleDictionaryEntry := with_SHA256 agent_v1_digest entry_agent.
Definition have_agent_v2 : BundleDictionaryEntry := with_SHA256 agent_v2_digest entry_agent.

Definition outdated_world : world :=
  mkWorld host_files 4096 {[ 0%nat := [have_agent_v1; entry_configuration] ]}
          (Some manifest_default) [].

Definition current_checked_world : world :=
  mkWorld current_files 4096
          {[ 0%nat := [have_agent_v2; with_SHA256 agent_cfg_digest entry_configuration] ]}
          (Some manifest_default) [].

(** A manifest root as configured: an absolute path in clean form,
    other than the root directory. *)
Definition clean_root (root : string) : Prop :=
  is_rooted root = true /\ path_Clean root = root /\ root <> "/".

(** A path element that [path.Clean] keeps as it is. *)
Definition plain (e : string) : Prop :=
  e <> "" /\ e <> "." /\ e <> ".." /\ components e = [e].

(** What [manifestLoad] finds at a path. *)
Definition manifest_at `{Json} (w : world) (path : string) : error + ManifestResponse :=
  match files w !! path with
  | None => inl (PathError "open" path ENOENT)
  | Some (File content) => json_Unmarshal content
  | Some Dir => inl (PathError "read" path EISDIR)
  | Some (NoAccess _) => inl (PathError "open" path EACCES)
  end.

(** The path of [e] in the directory [dir], a path in clean form. *)
Definition inside (dir e : string) : string :=
  if String.eqb dir "/" then "/" +:+ e
  else if String.eqb dir "." then e
  else dir +:+ "/" +:+ e.

(** An element without a slash. *)
Definition no_slash (e : string) : Prop := components e = [e].

(** The elements [path.Clean] has kept, last one first: plain elements
    above the [..] elements that start a path that is not rooted. *)
Definition kept_ok (rooted : bool) (kept : list string) : Prop :=
  exists plains dots,
    kept = plains ++ dots
    /\ Forall plain plains
    /\ Forall (fun e => e = "..") dots
    /\ (rooted = true -> dots = []).

(** [path.Clean]'s result from the elements it has kept, first one
    first. *)
Definition render (rooted : bool) (K : list string) : string :=
  if rooted then "/" +:+ join_slash K
  else match K with
       | [] => "."
       | _ => join_slash K
       end.

(** The directories of the two tiers for an identity, [root/operator/arch/os]
    and [root/default/arch/os], under the manifest root in clean form. *)
Definition operator_tier (ctx : context) (p : ManifestParameters) : string :=
  inside (inside (inside (path_Clean (Manifest_Path ctx)) (Operator p)) (Arch p)) (OS p).

Definition default_tier (ctx : context) (p : ManifestParameters) : string :=
  inside (inside (inside (path_Clean (Manifest_Path ctx)) "default") (Arch p)) (OS p).

(** The lines [checkEntry] prints for an entry found in the manifest,
    before it calls [fetchAndReplace]. *)
Definition check_lines (entry : BundleDictionaryEntry) (compare : ManifestEntry)
  : list event :=
  [ Stderr ("checkEntry() -> Comparing " +:+ Name entry +:+ " " +:+ Path entry);
    Stderr ("checkEntry() -> We have " +:+ SHA256 entry);
    Stderr ("checkEntry() -> API has " +:+ me_SHA256 compare) ]
  ++ (if String.eqb (SHA256 entry) (me_SHA256 compare)
      then [Stderr "checkEntry() -> Nothing to do here..."]
      else [])
  ++ [ Stderr ("checkEntry() -> refreshing " +:+ Name entry) ].

(* ===================================================================== *)
(** ** The fetch endpoint and the earlier resolver *)
(* ===================================================================== *)

(** [ManifestParameters.ValidateFetch] is declared in a part of package
    [mig] that is not among the sources: the endpoint takes it as it
    comes. *)
Class FetchValidation : Type := {
  ValidateFetch : ManifestParameters -> option error;
}.

(** The resource of the fetch endpoint: an error, or the item that
    holds the [ManifestFetchResponse] with its [Data]. *)
Inductive fetch_resource : Type :=
| FetchError (message : string)
| FetchContent (data : list byte).

(** The body of [getManifestFile] up to [respond(200, ...)]. *)
Definition getManifestFile_body `{Json} `{Gzip} `{FetchValidation}
    (ctx : context) (req : request) : M (list byte) :=
  match req with
  | BadForm e => panic (Error e)
  | Form parameters =>
      do_ log (Log "Received manifest file request");
      match parameters with
      | Err e => panic (Error e)
      | Panic msg => panic msg
      | Ok manifestParam =>
          match ValidateFetch manifestParam with
          | Some err => panic (Error err)
          | None =>
              fun w =>
                match manifestRoot ctx manifestParam w with
                | (w1, Err err) => (w1, Panic (Error err))
                | (w1, Panic msg) => (w1, Panic msg)
                | (w1, Ok (root, manifest)) =>
                    match find (fun e => String.eqb (me_Name e) (Object manifestParam))
                               (Entries manifest) with
                    | None => (w1, Panic "requested object does not exist in manifest")
                    | Some mentry =>
                        let filepath := path_Join [root; "files"; me_Name mentry] in
                        match loadContent filepath (me_SHA256 mentry) w1 with
                        | (w2, Ok buf) => (w2, Ok buf)
                        | (w2, Err err) => (w2, Panic (Error err))
                        | (w2, Panic msg) => (w2, Panic msg)
                        end
                    end
                end
          end
      end
  end.

Definition getManifestFile `{Json} `{Gzip} `{FetchValidation}
    (ctx : context) (req : request) : world -> world * (nat * fetch_resource) :=
  fun w =>
    let recovered (msg : string) (w1 : world) : world * (nat * fetch_resource) :=
      (emit (Log "leaving getManifestFile()") (emit (Log msg) w1),
       (500, FetchError msg)) in
    match getManifestFile_body ctx req w with
    | (w1, Ok buf) =>
        (emit (Log "leaving getManifestFile()") w1, (200, FetchContent buf))
    | (w1, Panic msg) => recovered msg w1
    | (w1, Err e) => recovered (Error e) w1
    end.

(** [getManifestResponse], the resolver of the earlier version of the
    endpoints. *)
Definition getManifestResponse `{Json} (ctx : context) (p : ManifestParameters)
  : M ManifestResponse :=
  let primary :=
    path_Join [Manifest_Path ctx; Operator p; Arch p; OS p; "manifest.json"] in
  let secondary :=
    path_Join [Manifest_Path ctx; "default"; Arch p; OS p; "manifest.json"] in
  do_ log (Log ("Primary: " +:+ primary));
  do_ log (Log ("Secondary: " +:+ secondary));
  fun w =>
    match manifestLoad primary w with
    | (w1, Err _) =>
        match manifestLoad secondary w1 with
        | (w2, Err _) => (w2, Err (Errorf "unable to locate manifest"))
        | other => other
        end
    | other => other
    end.

(** *** More vocabulary *)

(** From [w] to [w'] the file system is the same and nothing was
    created, written or renamed. *)
Definition untouched (w w' : world) : Prop :=
  files w' = files w
  /\ free w' = free w
  /\ List.filter is_write_event (trace w') = List.filter is_write_event (trace w).

Definition reads_only {A} (c : M A) : Prop :=
  forall w, untouched w (fst (c w)).

Definition is_net_event (e : event) : bool :=
  match e with
  | NetPost _ _ => true
  | _ => false
  end.

(** The request [requestManifest] posts. *)
Definition manifest_params `{Runtime} `{Remote} : ManifestParameters :=
  {| OS := GOOS; Arch := GOARCH;
     Operator := if String.eqb TAGS_Operator "" then "default" else TAGS_Operator;
     Object := "" |}.

(** The same API for a loader built without an operator tag. *)
Definition untagged_remote : Remote := {|
  APIURL := "https://api.mig.example.net/api/v1/";
  TAGS_Operator := "";
  post_manifest := fun _ => ReplyValue manifest_default;
  post_fetch := fun _ => ReplyNoItem;
|}.

(** An API that cannot be reached. *)
Definition unreachable_remote : Remote := {|
  APIURL := "https://api.mig.example.net/api/v1/";
  TAGS_Operator := "acme";
  post_manifest := fun _ => ReplyError (Errorf "dial tcp: connection refused");
  post_fetch := fun _ => ReplyError (Errorf "dial tcp: connection refused");
|}.

(** A fetch endpoint that validates like the manifest endpoint. *)
Definition fetch_as_manifest : FetchValidation := {| ValidateFetch := Validate |}.

Definition agent_request : ManifestParameters :=
  {| Operator := "acme"; OS := "linux"; Arch := "amd64"; Object := "agent" |}.

Definition missing_request : ManifestParameters :=
  {| Operator := "acme"; OS := "linux"; Arch := "amd64"; Object := "scribe" |}.

(** From [w] to [w'] every backing array has the entries it had, by
    name and path, in the same order. *)
Definition same_entries (w w' : world) : Prop :=
  forall base,
    List.map (fun e => (Name e, Path e)) (default [] (arrays w' !! base))
    = List.map (fun e => (Name e, Path e)) (default [] (arrays w !! base)).

(** From [w] to [w'] only digests in the backing arrays may differ. *)
Definition digests_only (w w' : world) : Prop :=
  untouched w w' /\ apiManifest w' = apiManifest w /\ same_entries w w'.
(* ===================================================================== *)
(** * Properties *)
(* ===================================================================== *)

(** ** Test vectors of the libraries *)

Example sha256_empty :
  sha256_hex [] = "e3b0c44298fc1c149afbf4c8996fb92427ae41e4649b934ca495991b7852b855".
Proof. vm_compute. reflexivity. Qed.

Example sha256_abc :
  sha256_hex (list_byte_of_string "abc")
  = "ba7816bf8f01cfea414140de5dae2223b00361a396177a9cb410ff61f20015ad".
Proof. vm_compute. reflexivity. Qed.

Example sha256_two_blocks :
  sha256_hex (list_byte_of_string
    "abcdbcdecdefdefgefghfghighijhijkijkljklmklmnlmnomnopnopq")
  = "248d6a61d20638b8e5c026930c3e6039a33ce45964ff2167f6ecedd419db06c1".
Proof. vm_compute. reflexivity. Qed.

Example crc32_check_value :
  StoredGzip.crc32 (list_byte_of_string "123456789") = 3421780262%N.
Proof. vm_compute. reflexivity. Qed.

Example path_Join_examples :
  path_Join ["/var/cache/mig"; "acme"; "amd64"; "linux"] = "/var/cache/mig/acme/amd64/linux"
  /\ path_Join ["/var/cache/mig/"; "../../etc"; "amd64"; "linux"] = "/var/etc/amd64/linux"
  /\ path_Join [""; "a//b/./c/.."; "../../../x"] = "../x"
  /\ path_Clean "/../a/.." = "/"
  /\ path_Clean "" = ".".
Proof. repeat split; vm_compute; reflexivity. Qed.

(** ** Anchored matching decides the language of a pattern *)

Section Regex.

Lemma str_app_nil (s : string) : EmptyString +:+ s = s.
Proof. reflexivity. Qed.

Lemma str_app_cons (c : ascii) (s1 s2 : string) :
  String c s1 +:+ s2 = String c (s1 +:+ s2).
Proof. reflexivity. Qed.

Lemma app_empty_inv (s1 s2 : string) :
  s1 +:+ s2 = EmptyString -> s1 = EmptyString /\ s2 = EmptyString.
Proof.
  destruct s1; rewrite ?str_app_nil, ?str_app_cons; [tauto | discriminate].
Qed.

Lemma nullable_lang (r : regex) : nullable r = true <-> re_lang r EmptyString.
Proof.
  split.
  - induction r; simpl; intros Hn; try discriminate.
    + constructor.
    + apply andb_true_iff in Hn as [H1 H2].
      change EmptyString with (EmptyString +:+ EmptyString).
      constructor; auto.
    + apply orb_true_iff in Hn as [H1 | H2].
      * apply lang_alt_l; auto.
      * apply lang_alt_r; auto.
    + constructor.
  - intros Hl. remember EmptyString as s eqn:Es.
    induction Hl; simpl; try reflexivity; try discriminate.
    + apply app_empty_inv in Es as [-> ->].
      rewrite IHHl1, IHHl2; auto.
    + rewrite IHHl; auto.
    + rewrite IHHl, orb_true_r; auto.
Qed.

Lemma deriv_sound (c : ascii) (r : regex) :
  forall s, re_lang (deriv c r) s -> re_lang r (String c s).
Proof.
  induction r; simpl; intros s Hd.
  - inversion Hd.
  - inversion Hd.
  - destruct (in_class ranges c) eqn:Ec; inversion Hd; subst.
    constructor; exact Ec.
  - destruct (nullable r1) eqn:En.
    + inversion Hd as [ | | | ? ? ? Hl | ? ? ? Hr | | ]; subst.
      * inversion Hl; subst.
        change (String c (s1 +:+ s2)) with (String c s1 +:+ s2).
        constructor; auto.
      * change (String c s) with (EmptyString +:+ String c s).
        constructor; [apply nullable_lang; exact En | auto].
    + inversion Hd; subst.
      change (String c (s1 +:+ s2)) with (String c s1 +:+ s2).
      constructor; auto.
  - inversion Hd; subst; [apply lang_alt_l | apply lang_alt_r]; auto.
  - inversion Hd; subst.
    change (String c (s1 +:+ s2)) with (String c s1 +:+ s2).
    apply lang_star_cons; auto.
Qed.

Lemma deriv_complete (c : ascii) (r : regex) (cs : string) :
  re_lang r cs -> forall s, cs = String c s -> re_lang (deriv c r) s.
Proof.
  induction 1 as [ | ranges c' Hc | r1 r2 s1 s2 H1 IH1 H2 IH2
                 | r1 r2 s0 H1 IH1 | r1 r2 s0 H2 IH2
                 | r0 | r0 s1 s2 H1 IH1 H2 IH2 ]; intros s E; simpl.
  - discriminate.
  - injection E as -> <-. rewrite Hc. constructor.
  - destruct s1 as [ | c1 s1']; rewrite ?str_app_nil, ?str_app_cons in E.
    + subst s2. apply nullable_lang in H1. rewrite H1.
      apply lang_alt_r. apply IH2; reflexivity.
    + injection E as -> <-.
      destruct (nullable r1).
      * apply lang_alt_l. constructor; auto.
      * constructor; auto.
  - apply lang_alt_l; auto.
  - apply lang_alt_r; auto.
  - discriminate.
  - destruct s1 as [ | c1 s1']; rewrite ?str_app_nil, ?str_app_cons in E.
    + subst s2. apply (IH2 s eq_refl).
    + injection E as -> <-. constructor; auto.
Qed.

Lemma full_match_lang (s : string) :
  forall r, full_match r s = true <-> re_lang r s.
Proof.
  induction s as [ | c tl IH]; intros r; simpl.
  - apply nullable_lang.
  - rewrite IH. split.
    + apply deriv_sound.
    + intros Hl. eapply deriv_complete; eauto.
Qed.

Lemma star_class_all (ranges : list (ascii * ascii)) (r : regex) (s : string) :
  re_lang r s -> r = ReStar (ReClass ranges) ->
  all_chars (in_class ranges) s = true.
Proof.
  induction 1 as [ | | | | | r0 | r0 s1 s2 H1 _ H2 IH2 ]; intros E;
    try discriminate; [reflexivity | ].
  injection E as ->. inversion H1; subst.
  rewrite str_app_cons, str_app_nil. simpl.
  rewrite IH2 by reflexivity. rewrite andb_true_r. assumption.
Qed.

Lemma all_star_class (ranges : list (ascii * ascii)) (s : string) :
  all_chars (in_class ranges) s = true -> re_lang (ReStar (ReClass ranges)) s.
Proof.
  induction s as [ | c tl IH]; simpl; intros Ha.
  - constructor.
  - apply andb_true_iff in Ha as [Hc Htl].
    change (String c tl) with (String c EmptyString +:+ tl).
    apply lang_star_cons; [constructor; exact Hc | auto].
Qed.

(** ["^[A-Za-z0-9]+$"] matches the non-empty strings of letters and
    digits, and nothing else. *)
Lemma MatchString_pre (s : string) :
  MatchString pre s = negb (String.eqb s "") && all_chars is_alnum s.
Proof.
  unfold MatchString.
  destruct (negb (String.eqb s "") && all_chars is_alnum s) eqn:E.
  - apply full_match_lang.
    apply andb_true_iff in E as [Hne Hall].
    destruct s as [ | c tl]; [discriminate | ].
    simpl in Hall. apply andb_true_iff in Hall as [Hc Htl].
    change (String c tl) with (String c EmptyString +:+ tl).
    unfold pre, RePlus. constructor.
    + constructor. exact Hc.
    + apply all_star_class. exact Htl.
  - apply not_true_iff_false. intros Hm. apply full_match_lang in Hm.
    unfold pre, RePlus in Hm. inversion Hm as [ | | ? ? s1 s2 H1 H2 | | | | ]; subst.
    inversion H1; subst. rewrite str_app_cons, str_app_nil in E. simpl in E.
    apply (star_class_all alnum) in H2; [ | reflexivity].
    unfold is_alnum in *. rewrite H2, andb_true_r in E. congruence.
Qed.

End Regex.

(** ** Validation of the identity parameters (C3) *)

Lemma all_chars_false (p : ascii -> bool) (s : string) (c : ascii) :
  In c (list_ascii_of_string s) -> p c = false -> all_chars p s = false.
Proof.
  induction s as [ | a tl IH]; simpl; [tauto | ].
  intros [-> | Hin] Hp.
  - rewrite Hp. reflexivity.
  - rewrite (IH Hin Hp). apply andb_false_r.
Qed.

Lemma all_chars_true (p : ascii -> bool) (s : string) :
  all_chars p s = true <-> forall c, In c (list_ascii_of_string s) -> p c = true.
Proof.
  induction s as [ | a tl IH]; simpl.
  - tauto.
  - rewrite andb_true_iff, IH. split.
    + intros [Ha Htl] c [<- | Hin]; auto.
    + intros Hall. split; auto.
Qed.

Lemma bad_parameter_no_match (s : string) :
  bad_parameter s -> MatchString pre s = false.
Proof.
  rewrite MatchString_pre. intros [-> | (c & Hin & Hc)].
  - reflexivity.
  - rewrite (all_chars_false _ _ _ Hin Hc). apply andb_false_r.
Qed.

Lemma match_not_bad (s : string) :
  MatchString pre s = true -> ~ bad_parameter s.
Proof.
  intros Hm Hbad. rewrite (bad_parameter_no_match _ Hbad) in Hm. discriminate.
Qed.

Lemma no_match_bad (s : string) :
  MatchString pre s = false -> bad_parameter s.
Proof.
  rewrite MatchString_pre. destruct s as [ | a tl]; [left; reflexivity | ].
  intros Hm. right. cbn [String.eqb negb andb] in Hm.
  induction (String a tl) as [ | b s IH]; simpl in Hm; [discriminate | ].
  destruct (is_alnum b) eqn:Eb.
  - destruct (IH Hm) as (c & Hin & Hc). exists c. simpl. auto.
  - exists b. simpl. auto.
Qed.

(** [Validate] returns nil exactly on three non-empty strings of
    letters and digits. *)
Lemma Validate_nil_iff (m : ManifestParameters) :
  Validate m = None
  <-> ~ bad_parameter (Operator m) /\ ~ bad_parameter (OS m) /\ ~ bad_parameter (Arch m).
Proof.
  unfold Validate. split.
  - destruct (_ || _ || _)%bool; [discriminate | ].
    destruct (MatchString pre (Operator m)) eqn:E1; [ | discriminate].
    destruct (MatchString pre (OS m)) eqn:E2; [ | discriminate].
    destruct (MatchString pre (Arch m)) eqn:E3; [ | discriminate].
    intros _. repeat split; apply match_not_bad; assumption.
  - intros (H1 & H2 & H3).
    destruct (MatchString pre (Operator m)) eqn:E1;
      [ | exfalso; apply H1, no_match_bad, E1].
    destruct (MatchString pre (OS m)) eqn:E2;
      [ | exfalso; apply H2, no_match_bad, E2].
    destruct (MatchString pre (Arch m)) eqn:E3;
      [ | exfalso; apply H3, no_match_bad, E3].
    rewrite MatchString_pre in E1, E2, E3.
    apply andb_true_iff in E1 as [E1 _], E2 as [E2 _], E3 as [E3 _].
    apply negb_true_iff in E1, E2, E3. rewrite E1, E2, E3. reflexivity.
Qed.

(** C3. If the operator, the OS or the architecture is empty or holds a
    character outside [A-Za-z0-9], [Validate] returns an error, and
    [getAgentManifest] answers 500 with that error: all it has done by
    then is log the error and its exit, so that no manifest path was
    looked up and the file system was not touched, whatever the
    manifest root and the files are. *)
Theorem Validate_rejects_before_lookup (m : ManifestParameters) :
  bad_parameter (Operator m) \/ bad_parameter (OS m) \/ bad_parameter (Arch m) ->
  exists err,
    Validate m = Some err
    /\ forall (J : Json) (ctx : context) (w : world),
         getAgentManifest ctx (Form (Ok m)) w
         = (emit (Log "leaving getAgentManifest()") (emit (Log (Error err)) w),
            (500, ResError (Error err)))
         /\ List.filter is_fs_event (trace (fst (getAgentManifest ctx (Form (Ok m)) w)))
            = List.filter is_fs_event (trace w).
Proof.
  intros Hbad.
  destruct (Validate m) as [err | ] eqn:Ev.
  - exists err. split; [reflexivity | ]. intros J ctx w.
    assert (Hrun : getAgentManifest ctx (Form (Ok m)) w
                   = (emit (Log "leaving getAgentManifest()") (emit (Log (Error err)) w),
                      (500, ResError (Error err)))).
    { unfold getAgentManifest, getAgentManifest_body. rewrite Ev. reflexivity. }
    split; [exact Hrun | ].
    rewrite Hrun. simpl. rewrite !List.filter_app. simpl. rewrite !app_nil_r. reflexivity.
  - apply Validate_nil_iff in Ev as (H1 & H2 & H3). tauto.
Qed.

Lemma Validate_rejects_before_lookup_witness :
  exists err,
    Validate etc_request = Some err
    /\ forall (J : Json) (ctx : context) (w : world),
         getAgentManifest ctx (Form (Ok etc_request)) w
         = (emit (Log "leaving getAgentManifest()") (emit (Log (Error err)) w),
            (500, ResError (Error err)))
         /\ List.filter is_fs_event (trace (fst (getAgentManifest ctx (Form (Ok etc_request)) w)))
            = List.filter is_fs_event (trace w).
Proof.
  apply (Validate_rejects_before_lookup etc_request).
  left. right. exists "."%char. split; [simpl; tauto | vm_compute; reflexivity].
Defined.

Example GetHostBundle_other_platform :
  @GetHostBundle plan9_386 host_world
  = (host_world,
     Err (Errorf "GetHostBundle() -> no entry for plan9 in bundle dictionary")).
Proof. reflexivity. Qed.

Example Validate_etc :
  Validate etc_request = Some (Errorf "bad characters in manifest parameters").
Proof. vm_compute. reflexivity. Qed.

(** ** The read loop *)

Section ReadLoop.
Context {S : Type}.

(** On a regular file, and with a body that does not fail, the loop
    ends, having run the body on pieces that make up what was left to
    read. *)
Lemma read_loop_file (bufsize : nat) (f : S -> list byte -> S) (path : string) :
  0 < bufsize ->
  forall (fuel : nat) (rest : list byte) (s : S),
    length rest < fuel ->
    exists pieces : list (list byte),
      List.concat pieces = rest
      /\ read_loop fuel bufsize (fun s p => Ok (f s p)) (FdRead path rest) s
         = Ok (fold_left f pieces s).
Proof.
  intros Hbuf. induction fuel as [ | fuel IH]; intros rest s Hlen; [lia | ].
  destruct rest as [ | b tl].
  - exists []. split; reflexivity.
  - cbn [read_loop fd_Read].
    assert (Hpos : (0 <? length (firstn bufsize (b :: tl)))%nat = true).
    { apply Nat.ltb_lt. rewrite length_take. simpl. lia. }
    rewrite Hpos.
    destruct (IH (skipn bufsize (b :: tl)) (f s (firstn bufsize (b :: tl))))
      as (pieces & Hcat & Hrun).
    { rewrite length_drop. simpl in *. lia. }
    exists (firstn bufsize (b :: tl) :: pieces). split.
    + cbn [List.concat]. rewrite Hcat. apply take_drop.
    + rewrite Hrun. reflexivity.
Qed.

(** With the bound [fd_fuel] gives, the loop never runs out of
    iterations, whatever it reads from. *)
Lemma read_loop_within_bound (bufsize : nat) (f : S -> list byte -> S) (d : fd) (s : S) :
  0 < bufsize ->
  read_loop (fd_fuel d) bufsize (fun s p => Ok (f s p)) d s
  <> Panic "read loop: iteration bound exceeded".
Proof.
  intros Hbuf. destruct d as [path rest | path | path]; try discriminate.
  destruct (read_loop_file bufsize f path Hbuf (fd_fuel (FdRead path rest)) rest s)
    as (pieces & _ & ->); [cbn; lia | discriminate].
Qed.

Lemma read_loop_dir (fuel bufsize : nat) (step : S -> list byte -> result S)
    (path : string) (s : S) :
  read_loop (Datatypes.S fuel) bufsize step (FdDir path) s
  = Err (PathError "read" path EISDIR).
Proof. reflexivity. Qed.

End ReadLoop.

Lemma fold_hash_Write (pieces : list (list byte)) (h : list byte) :
  fold_left hash_Write pieces h = h ++ List.concat pieces.
Proof.
  revert h. induction pieces as [ | p tl IH]; intros h; simpl.
  - rewrite app_nil_r. reflexivity.
  - rewrite IH. unfold hash_Write. rewrite <- app_assoc. reflexivity.
Qed.

(** Hashing an open regular file hashes all of it. *)
Lemma hash_stream_file (path : string) (content h : list byte) :
  hash_stream (FdRead path content) h = Ok (h ++ content).
Proof.
  unfold hash_stream.
  destruct (read_loop_file 4096 hash_Write path ltac:(lia)
              (fd_fuel (FdRead path content)) content h) as (pieces & Hcat & Hrun).
  { simpl. lia. }
  rewrite Hrun, fold_hash_Write, Hcat. reflexivity.
Qed.

Lemma ioutil_ReadAll_file (path : string) (content : list byte) :
  ioutil_ReadAll (FdRead path content) = Ok content.
Proof.
  unfold ioutil_ReadAll.
  destruct (read_loop_file 512 hash_Write path ltac:(lia)
              (fd_fuel (FdRead path content)) content []) as (pieces & Hcat & Hrun).
  { simpl. lia. }
  unfold hash_Write in Hrun at 1. rewrite Hrun, fold_hash_Write, Hcat. reflexivity.
Qed.

(** ** The server's content loader (C4) *)

Section LoadContent.
Context {G : Gzip}.

Lemma fold_hash_gzip (pieces : list (list byte)) (h : list byte) (z : gz_writer) :
  fold_left (fun (hz : list byte * gz_writer) p =>
               (hash_Write (fst hz) p, gz_Write (snd hz) p)) pieces (h, z)
  = (h ++ List.concat pieces, fold_left gz_Write pieces z).
Proof.
  revert h z. induction pieces as [ | p tl IH]; intros h z; simpl.
  - rewrite app_nil_r. reflexivity.
  - rewrite IH. unfold hash_Write. rewrite <- app_assoc. reflexivity.
Qed.

(** What [loadContent] does on a regular file: it opens it, and
    answers by the digest of all its content. *)
Lemma loadContent_file (path sig : string) (w : world) (content : list byte) :
  files w !! path = Some (File content) ->
  exists pieces : list (list byte),
    List.concat pieces = content
    /\ loadContent path sig w
       = (emit (FsOpen path) w,
          if negb (String.eqb (sha256_hex content) sig)
          then Err (Errorf "manifest signature did not match file")
          else Ok (gz_Close (fold_left gz_Write pieces gzip_NewWriter))).
Proof.
  intros Hfile.
  destruct (read_loop_file 4096
              (fun (hz : list byte * gz_writer) p =>
                 (hash_Write (fst hz) p, gz_Write (snd hz) p))
              path ltac:(lia) (fd_fuel (FdRead path content)) content
              (sha256_New, gzip_NewWriter)) as (pieces & Hcat & Hrun).
  { simpl. lia. }
  exists pieces. split; [exact Hcat | ].
  unfold loadContent, os_Open, bind, log. cbn [files emit].
  rewrite Hfile, Hrun, fold_hash_gzip, Hcat.
  unfold sha256_hex, hash_Write, sha256_New. cbn [app].
  destruct (negb _); reflexivity.
Qed.

(** A payload comes back only for a regular file whose digest is the
    expected one. *)
Lemma loadContent_Ok_inv (path sig : string) (w w' : world) (buf : list byte) :
  loadContent path sig w = (w', Ok buf) ->
  exists content,
    files w !! path = Some (File content) /\ sha256_hex content = sig.
Proof.
  intros Hrun.
  destruct (files w !! path) as [[content | | content] | ] eqn:Hfile.
  - exists content. split; [reflexivity | ].
    destruct (loadContent_file path sig w content Hfile) as (pieces & _ & Heq).
    rewrite Heq in Hrun.
    destruct (String.eqb (sha256_hex content) sig) eqn:E.
    + apply String.eqb_eq. exact E.
    + simpl in Hrun. inversion Hrun.
  - unfold loadContent, os_Open, bind, log in Hrun. cbn [files emit] in Hrun.
    rewrite Hfile in Hrun. simpl in Hrun. inversion Hrun.
  - unfold loadContent, os_Open, bind, log in Hrun. cbn [files emit] in Hrun.
    rewrite Hfile in Hrun. inversion Hrun.
  - unfold loadContent, os_Open, bind, log in Hrun. cbn [files emit] in Hrun.
    rewrite Hfile in Hrun. inversion Hrun.
Qed.

(** C4. When the digest [loadContent] computes over the file's content
    is not the expected one, it returns the error "manifest signature
    did not match file" in place of a payload. *)
Theorem loadContent_fails_closed (path sig : string) (w : world) (content : list byte) :
  files w !! path = Some (File content) ->
  sha256_hex content <> sig ->
  loadContent path sig w
  = (emit (FsOpen path) w, Err (Errorf "manifest signature did not match file")).
Proof.
  intros Hfile Hne.
  destruct (loadContent_file path sig w content Hfile) as (pieces & _ & Heq).
  rewrite Heq. apply String.eqb_neq in Hne. rewrite Hne. reflexivity.
Qed.

End LoadContent.

(** ** The stored-block gzip codec honours the contract *)

Module StoredGzipFacts.
Import StoredGzip.
Local Open Scope N_scope.

Lemma byte_of_N_value (n : N) : Byte.to_N (byte_of_N n) = n mod 256.
Proof.
  unfold byte_of_N. destruct (Byte.of_N (n mod 256)) as [b | ] eqn:E.
  - apply Byte.to_of_N. exact E.
  - apply Byte.of_N_None_iff in E.
    pose proof (N.mod_upper_bound n 256 ltac:(discriminate)). lia.
Qed.

Lemma le_value_bytes (k : nat) :
  forall v, v < 256 ^ N.of_nat k -> le_value (le_bytes k v) = v.
Proof.
  induction k as [ | k IH]; intros v Hv.
  - simpl in *. lia.
  - cbn [le_bytes le_value]. rewrite byte_of_N_value, IH.
    + pose proof (N.div_mod' v 256). lia.
    + rewrite Nat2N.inj_succ, N.pow_succ_r' in Hv.
      apply N.Div0.div_lt_upper_bound. exact Hv.
Qed.

Lemma le_bytes_2 (v : N) : le_bytes 2 v = [byte_of_N v; byte_of_N (v / 256)].
Proof. reflexivity. Qed.

Lemma block_max_N : N.of_nat block_max = 65535.
Proof. unfold block_max. apply N2Nat.id. Qed.

Lemma inflate_deflate (fuel : nat) :
  forall (data tail : list byte) (fuel2 : nat),
    (length data < fuel)%nat -> (length data < fuel2)%nat ->
    inflate_stored fuel2 (deflate_stored fuel data ++ tail) = Some (data, tail).
Proof.
  pose proof block_max_N as Hmax.
  induction fuel as [ | fuel IH]; intros data tail fuel2 H1 H2; [lia | ].
  destruct fuel2 as [ | fuel2]; [lia | ].
  cbn [deflate_stored].
  destruct (length data <=? block_max)%nat eqn:E.
  - apply Nat.leb_le in E.
    rewrite !le_bytes_2. cbn [app inflate_stored].
    rewrite <- !le_bytes_2.
    rewrite !le_value_bytes by (change (256 ^ N.of_nat 2) with 65536; lia).
    change (N.land (Byte.to_N x01) 6 =? 0) with true.
    change (N.odd (Byte.to_N x01)) with true.
    replace (N.of_nat (length data) + (65535 - N.of_nat (length data)) =? 65535)
      with true by (symmetry; apply N.eqb_eq; lia).
    rewrite Nat2N.id.
    replace (length data <=? length (data ++ tail))%nat
      with true by (symmetry; apply Nat.leb_le; rewrite length_app; lia).
    cbn [andb]. rewrite take_app_length, drop_app_length. reflexivity.
  - apply Nat.leb_gt in E.
    rewrite !le_bytes_2. cbn [app inflate_stored].
    rewrite <- !le_bytes_2.
    rewrite !le_value_bytes by (change (256 ^ N.of_nat 2) with 65536; lia).
    change (N.land (Byte.to_N x00) 6 =? 0) with true.
    change (N.odd (Byte.to_N x00)) with false.
    change (65535 + 0 =? 65535) with true.
    change (N.to_nat 65535) with block_max.
    rewrite <- !app_assoc.
    assert (Hlen : length (firstn block_max data) = block_max)
      by (rewrite length_take; lia).
    replace (block_max <=? length (firstn block_max data
               ++ deflate_stored fuel (skipn block_max data) ++ tail))%nat
      with true by (symmetry; apply Nat.leb_le; rewrite length_app; lia).
    cbn [andb].
    rewrite (take_app_length' _ _ block_max) by (symmetry; exact Hlen).
    rewrite (drop_app_length' _ _ block_max) by (symmetry; exact Hlen).
    rewrite IH by (rewrite length_drop; lia).
    rewrite take_drop. reflexivity.
Qed.

Lemma deflate_length (fuel : nat) :
  forall data : list byte,
    (length data < fuel)%nat ->
    (length data <= length (deflate_stored fuel data))%nat.
Proof.
  pose proof block_max_N as Hmax.
  induction fuel as [ | fuel IH]; intros data H1; [lia | ].
  cbn [deflate_stored].
  destruct (length data <=? block_max)%nat eqn:E.
  - cbn [length]. rewrite !length_app. lia.
  - apply Nat.leb_gt in E. cbn [length]. rewrite !length_app, length_take.
    specialize (IH (skipn block_max data)). rewrite length_drop in IH. lia.
Qed.

Lemma decompress_compress (data : list byte) :
  decompress (compress data) = Ok data.
Proof.
  unfold compress, header. cbn [app decompress].
  change ((Byte.to_N x1f =? 31) && (Byte.to_N x8b =? 139)
          && (Byte.to_N x08 =? 8) && (Byte.to_N x00 =? 0)) with true.
  cbv iota.
  rewrite inflate_deflate.
  - set (crc := le_bytes 4 (crc32 data)).
    set (size := le_bytes 4 (N.of_nat (length data) mod 2 ^ 32)).
    assert (Hc : length crc = 4%nat) by reflexivity.
    rewrite (take_app_length' _ _ 4) by (symmetry; exact Hc).
    rewrite (drop_app_length' _ _ 4) by (symmetry; exact Hc).
    subst crc size.
    rewrite !le_value_bytes.
    + rewrite !N.eqb_refl. reflexivity.
    + change (256 ^ N.of_nat 4) with (2 ^ 32). apply N.mod_upper_bound. discriminate.
    + change (256 ^ N.of_nat 4) with (2 ^ 32). unfold crc32.
      apply N.mod_upper_bound. discriminate.
  - lia.
  - rewrite !length_app. cbn [le_bytes length].
    pose proof (deflate_length (S (length data)) data). lia.
Qed.

Lemma fold_append (pieces : list (list byte)) (acc : list byte) :
  fold_left (fun z p => z ++ p) pieces acc = acc ++ List.concat pieces.
Proof.
  revert acc. induction pieces as [ | p tl IH]; intros acc; simpl.
  - rewrite app_nil_r. reflexivity.
  - rewrite IH, <- app_assoc. reflexivity.
Qed.

End StoredGzipFacts.

(** The stored-block codec honours the library's contract. *)
Lemma stored_gzip_contract : gzip_contract stored_gzip.
Proof.
  intros pieces. cbn [gunzip gz_Close gz_Write gzip_NewWriter stored_gzip].
  rewrite StoredGzipFacts.fold_append. apply StoredGzipFacts.decompress_compress.
Qed.


Lemma loadContent_fails_closed_witness :
  @loadContent stored_gzip "/var/cache/mig/default/amd64/linux/files/agent" "abc123" api_world
  = (emit (FsOpen "/var/cache/mig/default/amd64/linux/files/agent") api_world,
     Err (Errorf "manifest signature did not match file")).
Proof.
  apply (@loadContent_fails_closed stored_gzip _ "abc123" api_world agent_v2).
  - vm_compute. reflexivity.
  - vm_compute. discriminate.
Defined.

(** ** Transport of an artifact (C9) *)

(** C9. Whatever bytes a file of the API holds, [loadContent] called
    with their digest returns a payload, and [fetchFile], given that
    payload as the fetch response's data, returns those bytes. *)
Theorem gzip_transport_roundtrip (G : Gzip) (content : list byte) :
  gzip_contract G ->
  forall (path : string) (w : world),
    files w !! path = Some (File content) ->
    exists buf : list byte,
      loadContent path (sha256_hex content) w = (emit (FsOpen path) w, Ok buf)
      /\ forall (R : Runtime) (Rm : Remote) (n : string) (w' : world),
           let mparam := {| OS := GOOS; Arch := GOARCH;
                            Operator := TAGS_Operator; Object := n |} in
           post_fetch mparam = ReplyValue buf ->
           fetchFile n w'
           = (emit (NetPost (APIURL +:+ "manifest/fetch") mparam) w', Ok content).
Proof.
  intros HG path w Hfile.
  destruct (loadContent_file path (sha256_hex content) w content Hfile)
    as (pieces & Hcat & Hrun).
  rewrite String.eqb_refl in Hrun. cbn [negb] in Hrun.
  eexists. split; [exact Hrun | ].
  intros R Rm n w' mparam Hreply.
  unfold fetchFile, bind, log, lift. fold mparam. rewrite Hreply.
  rewrite (HG pieces), Hcat. reflexivity.
Qed.

Lemma gzip_transport_roundtrip_witness :
  exists buf : list byte,
    @loadContent stored_gzip "/var/cache/mig/default/amd64/linux/files/agent"
      (sha256_hex agent_v2) api_world
    = (emit (FsOpen "/var/cache/mig/default/amd64/linux/files/agent") api_world, Ok buf)
    /\ forall (R : Runtime) (Rm : Remote) (n : string) (w' : world),
         let mparam := {| OS := GOOS; Arch := GOARCH;
                          Operator := TAGS_Operator; Object := n |} in
         post_fetch mparam = ReplyValue buf ->
         @fetchFile R Rm stored_gzip n w'
         = (emit (NetPost (APIURL +:+ "manifest/fetch") mparam) w', Ok agent_v2).
Proof.
  apply (gzip_transport_roundtrip stored_gzip agent_v2 stored_gzip_contract
           "/var/cache/mig/default/amd64/linux/files/agent" api_world).
  vm_compute. reflexivity.
Defined.

(** ** The local state snapshot (C6, C8) *)

Lemma os_Open_eq (path : string) (w : world) :
  os_Open path w
  = (emit (FsOpen path) w,
     match files w !! path with
     | None => Err (PathError "open" path ENOENT)
     | Some (File content) => Ok (FdRead path content)
     | Some Dir => Ok (FdDir path)
     | Some (NoAccess _) => Err (PathError "open" path EACCES)
     end).
Proof.
  unfold os_Open, bind, log. cbn [files emit].
  destruct (files w !! path) as [[ | | ] | ]; reflexivity.
Qed.

Lemma index_eq (s : slice) (i : nat) (w : world) (e : BundleDictionaryEntry) :
  elems s w !! i = Some e -> index s i w = (w, Ok e).
Proof. intros H. unfold index. rewrite H. reflexivity. Qed.

Lemma world_eta (w : world) :
  mkWorld (files w) (free w) (arrays w) (apiManifest w) (trace w) = w.
Proof. destruct w; reflexivity. Qed.

Section HashBundle.
Variable base : nat.

(** The loop over a run of entries whose files are absent or regular
    files: it leaves their digests in the backing array and goes on
    with the indices that follow. *)
Lemma HashBundle_range_readable (pre : list BundleDictionaryEntry) :
  forall (done rest : list BundleDictionaryEntry) (later : list nat) (w : world),
    arrays w !! base = Some (done ++ pre ++ rest) ->
    Forall (readable (files w)) pre ->
    HashBundle_range (slice_of base) (seq (length done) (length pre) ++ later) w
    = HashBundle_range (slice_of base) later
        (hashed_world base w (done ++ List.map (hashed (files w)) pre ++ rest) pre).
Proof.
  induction pre as [ | e pre IH]; intros done rest later w Harr Hread.
  - cbn [length seq app List.map]. f_equal. unfold hashed_world.
    cbn [List.map]. rewrite app_nil_r, insert_id by exact Harr.
    symmetry. apply world_eta.
  - apply Forall_cons in Hread as [He Hpre].
    cbn [length seq app HashBundle_range]. unfold bind at 1.
    rewrite (index_eq _ _ _ e).
    2:{ cbn [elems]. rewrite Harr. cbn [default from_option id]. apply list_lookup_middle. reflexivity. }
    rewrite os_Open_eq.
    assert (Hstep : forall w1 : world,
              files w1 = files w -> free w1 = free w -> apiManifest w1 = apiManifest w ->
              trace w1 = trace w ++ [FsOpen (Path e)] ->
              arrays w1 = <[base := done ++ hashed (files w) e :: pre ++ rest]> (arrays w) ->
              HashBundle_range (slice_of base) (seq (S (length done)) (length pre) ++ later) w1
              = HashBundle_range (slice_of base) later
                  (hashed_world base w (done ++ List.map (hashed (files w)) (e :: pre) ++ rest)
                     (e :: pre))).
    { intros w1 Hf Hfr Hm Ht Ha.
      replace (S (length done)) with (length (done ++ [hashed (files w) e]))
        by (rewrite length_app; simpl; lia).
      rewrite (IH (done ++ [hashed (files w) e]) rest later w1).
      - f_equal. unfold hashed_world. rewrite Hf, Hfr, Hm, Ht, Ha.
        rewrite insert_insert_eq. cbn [List.map]. rewrite <- !app_assoc. reflexivity.
      - rewrite Ha, lookup_insert_eq, <- app_assoc. reflexivity.
      - rewrite Hf. exact Hpre. }
    destruct He as [Habs | [content Hfile]].
    + rewrite Habs. cbn [os_IsNotExist].
      apply Hstep; try reflexivity.
      cbn [arrays emit]. unfold hashed. rewrite Habs.
      rewrite insert_id; [reflexivity | exact Harr].
    + rewrite Hfile, hash_stream_file.
      unfold bind at 1.
      unfold assign_SHA256 at 1. cbn [arrays emit]. rewrite Harr.
      rewrite decide_True by (rewrite !length_app; simpl; lia).
      apply Hstep; try reflexivity.
      cbn [arrays set_arrays]. f_equal.
      replace (length done) with (length done + 0) by lia.
      rewrite alter_app_r. cbn [alter list_alter]. 
      unfold hashed. rewrite Hfile. reflexivity.
Qed.

(** Every entry readable: the snapshot succeeds and returns the slice
    it was given, whose array now holds the digests. *)
Lemma HashBundle_readable (w : world) (es : list BundleDictionaryEntry) :
  arrays w !! base = Some es ->
  Forall (readable (files w)) es ->
  HashBundle (slice_of base) w
  = (hashed_world base w (List.map (hashed (files w)) es) es, Ok (slice_of base)).
Proof.
  intros Harr Hread. unfold HashBundle. cbn [elems]. rewrite Harr. cbn [default from_option id].
  pose proof (HashBundle_range_readable es [] [] [] w) as H.
  cbn [length app] in H. rewrite !app_nil_r in H.
  rewrite H by assumption. reflexivity.
Qed.

(** An entry that cannot be opened or read, after entries that can:
    the snapshot stops there with the error of the failed call. *)
Lemma HashBundle_unreadable (w : world) (pre post : list BundleDictionaryEntry)
    (bad : BundleDictionaryEntry) :
  arrays w !! base = Some (pre ++ bad :: post) ->
  Forall (readable (files w)) pre ->
  unreadable (files w) bad ->
  HashBundle (slice_of base) w
  = (emit (FsOpen (Path bad))
       (hashed_world base w (List.map (hashed (files w)) pre ++ bad :: post) pre),
     Err (snapshot_error (files w) bad)).
Proof.
  intros Harr Hread Hbad. unfold HashBundle. cbn [elems]. rewrite Harr. cbn [default from_option id].
  rewrite length_app. cbn [length]. rewrite seq_app. cbn [seq plus].
  pose proof (HashBundle_range_readable pre [] (bad :: post)
                (length pre :: seq (S (length pre)) (length post)) w) as H.
  cbn [length app] in H. rewrite ?Nat.add_0_l. rewrite H by assumption. clear H.
  cbn [HashBundle_range]. unfold bind at 1.
  rewrite (index_eq _ _ _ bad).
  2:{ cbn [elems hashed_world arrays]. rewrite lookup_insert_eq. cbn [default].
      apply list_lookup_middle. rewrite length_map. reflexivity. }
  rewrite os_Open_eq. cbn [files hashed_world]. unfold snapshot_error.
  destruct Hbad as [Hdir | [content Hno]].
  - rewrite Hdir. reflexivity.
  - rewrite Hno. reflexivity.
Qed.

End HashBundle.

(** A SHA-256 digest in hexadecimal is never the empty string, which
    thus stands for an absent file only. *)
Module Sha256Facts.
Import Sha256.

Lemma round_nonempty (st : list Z) (kw : Z * Z) : st <> [] -> round st kw <> [].
Proof.
  intros Hst. unfold round.
  destruct st as [ | a [ | b [ | c [ | d [ | e [ | f [ | g [ | h [ | ? ?]]]]]]]]];
    try discriminate; assumption.
Qed.

Lemma rounds_nonempty (kws : list (Z * Z)) :
  forall st, st <> [] -> fold_left round kws st <> [].
Proof.
  induction kws as [ | kw tl IH]; intros st Hst; simpl; [assumption | ].
  apply IH, round_nonempty, Hst.
Qed.

Lemma compress_nonempty (st blk : list Z) : st <> [] -> compress st blk <> [].
Proof.
  intros Hst. unfold compress.
  pose proof (rounds_nonempty (List.combine K256 (extend 48 (words_of_block blk))) st Hst) as H.
  destruct st; [congruence | ].
  destruct (fold_left round _ _); [congruence | ]. discriminate.
Qed.

Lemma digest_nonempty (msg : list Z) : digest msg <> [].
Proof.
  unfold digest.
  assert (H : forall blocks st, st <> [] -> fold_left compress blocks st <> []).
  { induction blocks as [ | b tl IH]; intros st Hst; simpl; [assumption | ].
    apply IH, compress_nonempty, Hst. }
  specialize (H (groups 64 (length (pad msg) / 64) (pad msg)) init256 ltac:(discriminate)).
  destruct (fold_left compress _ _); [congruence | ]. discriminate.
Qed.

End Sha256Facts.

Lemma sha256_hex_nonempty (content : list byte) : sha256_hex content <> "".
Proof.
  unfold sha256_hex, hash_Sum.
  pose proof (Sha256Facts.digest_nonempty
                (List.map byte_to_Z (hash_Write sha256_New content))) as H.
  destruct (Sha256.digest _); [congruence | ]. discriminate.
Qed.


Lemma readable_or_unreadable (fs : gmap string node) (e : BundleDictionaryEntry) :
  readable fs e \/ unreadable fs e.
Proof.
  unfold readable, unreadable.
  destruct (fs !! Path e) as [[content | | content] | ]; eauto.
Qed.

Lemma readable_not_unreadable (fs : gmap string node) (e : BundleDictionaryEntry) :
  readable fs e -> ~ unreadable fs e.
Proof.
  unfold readable, unreadable.
  intros [H | [c H]] [H' | [c' H']]; congruence.
Qed.

Lemma first_unreadable (fs : gmap string node) (es : list BundleDictionaryEntry) :
  Exists (unreadable fs) es ->
  exists pre bad post,
    es = pre ++ bad :: post /\ Forall (readable fs) pre /\ unreadable fs bad.
Proof.
  induction es as [ | e tl IH]; intros Hex.
  - inversion Hex.
  - destruct (readable_or_unreadable fs e) as [Hr | Hu].
    + apply Exists_cons in Hex as [Hu | Htl];
        [exfalso; exact (readable_not_unreadable _ _ Hr Hu) | ].
      destruct (IH Htl) as (pre & bad & post & -> & Hpre & Hbad).
      exists (e :: pre), bad, post. repeat split; auto.
    + exists [], e, tl. repeat split; auto.
Qed.

Lemma snapshot_error_not_absent (fs : gmap string node) (e : BundleDictionaryEntry) :
  os_IsNotExist (snapshot_error fs e) = false.
Proof. unfold snapshot_error. destruct (fs !! Path e) as [[ | | ] | ]; reflexivity. Qed.

(** The digests the snapshot leaves, entry by entry. *)
Lemma hashed_spec (fs : gmap string node) (e : BundleDictionaryEntry) :
  Name (hashed fs e) = Name e
  /\ Path (hashed fs e) = Path e
  /\ (fs !! Path e = None -> SHA256 (hashed fs e) = SHA256 e)
  /\ (forall content, fs !! Path e = Some (File content) ->
        SHA256 (hashed fs e) = sha256_hex content).
Proof.
  unfold hashed.
  destruct (fs !! Path e) as [[content | | content] | ]; cbn;
    repeat split; try discriminate; try reflexivity.
  intros c [= ->]. reflexivity.
Qed.

(** C6, as the code has it. For a list of entries that come in with an
    empty digest, as the templates of the dictionary do: when every
    file is absent or a regular file, [HashBundle] succeeds, and each
    entry comes out with its name and path, with the empty digest when
    the file at its path does not exist and with the SHA-256 digest of
    the content, in hexadecimal, when it does; when opening or reading
    some file fails for another reason, [HashBundle] returns that error
    and no snapshot. *)
Theorem HashBundle_snapshot (base : nat) (w : world) (es : list BundleDictionaryEntry) :
  arrays w !! base = Some es ->
  Forall (fun e => SHA256 e = "") es ->
  (Forall (readable (files w)) es ->
   exists w',
     HashBundle (slice_of base) w = (w', Ok (slice_of base))
     /\ files w' = files w
     /\ Forall2 (fun e e' =>
           Name e' = Name e /\ Path e' = Path e
           /\ (files w !! Path e = None -> SHA256 e' = "")
           /\ (forall content, files w !! Path e = Some (File content) ->
                 SHA256 e' = sha256_hex content))
          es (elems (slice_of base) w'))
  /\ (Exists (unreadable (files w)) es ->
      exists w' err,
        HashBundle (slice_of base) w = (w', Err err) /\ os_IsNotExist err = false).
Proof.
  intros Harr Hempty. split.
  - intros Hread. eexists. split; [apply HashBundle_readable; eassumption | ].
    split; [reflexivity | ].
    cbn [elems hashed_world arrays]. rewrite lookup_insert_eq. cbn [default from_option id].
    clear Harr Hread. induction es as [ | e tl IH]; cbn [List.map]; constructor.
    + apply Forall_cons in Hempty as [He _].
      destruct (hashed_spec (files w) e) as (Hn & Hp & Habs & Hfile).
      repeat split; auto. intros Hnone. rewrite (Habs Hnone). exact He.
    + apply IH. apply Forall_cons in Hempty as [_ Htl]. exact Htl.
  - intros Hex.
    destruct (first_unreadable _ _ Hex) as (pre & bad & post & -> & Hpre & Hbad).
    do 2 eexists. split; [apply HashBundle_unreadable; eassumption | ].
    apply snapshot_error_not_absent.
Qed.

Lemma HashBundle_snapshot_witness :
  (exists w',
     HashBundle (slice_of 0) host_world = (w', Ok (slice_of 0))
     /\ files w' = files host_world
     /\ Forall2 (fun e e' =>
           Name e' = Name e /\ Path e' = Path e
           /\ (files host_world !! Path e = None -> SHA256 e' = "")
           /\ (forall content, files host_world !! Path e = Some (File content) ->
                 SHA256 e' = sha256_hex content))
          [entry_agent; entry_configuration] (elems (slice_of 0) w'))
  /\ exists w' err,
       HashBundle (slice_of 0) broken_world = (w', Err err) /\ os_IsNotExist err = false.
Proof.
  split.
  - apply (HashBundle_snapshot 0 host_world [entry_agent; entry_configuration]).
    + reflexivity.
    + repeat constructor.
    + constructor; [ | constructor; [ | constructor]].
      * right. exists agent_v1. reflexivity.
      * left. reflexivity.
  - apply (HashBundle_snapshot 0 broken_world [entry_agent; entry_configuration]).
    + reflexivity.
    + repeat constructor.
    + apply Exists_cons_tl, Exists_cons_hd. left. reflexivity.
Defined.

(** C6, as the claim has it, fails: an entry that comes in with a
    digest keeps it when its file does not exist. *)
Lemma HashBundle_keeps_stale_digest :
  files stale_world !! "/sbin/mig-agent" = None
  /\ exists w',
       HashBundle (slice_of 0) stale_world = (w', Ok (slice_of 0))
       /\ elems (slice_of 0) w' = [stale_entry]
       /\ SHA256 stale_entry <> "".
Proof.
  split; [reflexivity | ].
  eexists. split; [ | split].
  - apply (HashBundle_readable 0 stale_world [stale_entry]).
    + reflexivity.
    + constructor; [left; reflexivity | constructor].
  - reflexivity.
  - discriminate.
Qed.

(** C8, on the code. [HashBundle] writes the digests into the array its
    argument refers to; called on the host bundle, that array is the
    table of the dictionary, whose template for the agent then carries
    a digest. *)
Theorem HashBundle_overwrites_dictionary (w : world) (content : list byte) :
  arrays w !! 0%nat = Some [entry_agent; entry_configuration] ->
  files w !! Path entry_agent = Some (File content) ->
  readable (files w) entry_configuration ->
  exists w',
    HashBundle bundleEntryLinux w = (w', Ok bundleEntryLinux)
    /\ exists table e,
         BundleDictionary !! "linux" = Some table
         /\ elems table w' !! 0%nat = Some e
         /\ Name e = "agent" /\ Path e = "/sbin/mig-agent"
         /\ SHA256 e = sha256_hex content /\ SHA256 e <> "".
Proof.
  intros Harr Hfile Hcfg.
  eexists. split.
  - apply (HashBundle_readable 0 w [entry_agent; entry_configuration] Harr).
    constructor; [right; eauto | constructor; [exact Hcfg | constructor]].
  - exists bundleEntryLinux, (with_SHA256 (sha256_hex content) entry_agent).
    split; [reflexivity | ]. split.
    + cbn [elems bundleEntryLinux hashed_world arrays]. rewrite lookup_insert_eq.
      cbn [default from_option id List.map]. unfold hashed at 1. rewrite Hfile. reflexivity.
    + cbn. repeat split; try reflexivity. apply sha256_hex_nonempty.
Qed.

Lemma HashBundle_overwrites_dictionary_witness :
  exists w',
    HashBundle bundleEntryLinux host_world = (w', Ok bundleEntryLinux)
    /\ exists table e,
         BundleDictionary !! "linux" = Some table
         /\ elems table w' !! 0%nat = Some e
         /\ Name e = "agent" /\ Path e = "/sbin/mig-agent"
         /\ SHA256 e = sha256_hex agent_v1 /\ SHA256 e <> "".
Proof.
  apply (HashBundle_overwrites_dictionary host_world agent_v1).
  - reflexivity.
  - reflexivity.
  - left. reflexivity.
Defined.

Example initializeHaveBundle_host :
  let w' := fst (@initializeHaveBundle linux_amd64 host_world) in
  List.map SHA256 (elems bundleEntryLinux host_world) = [""; ""]
  /\ List.map SHA256 (elems bundleEntryLinux w') = [agent_v1_digest; ""].
Proof. vm_compute. split; reflexivity. Qed.

(** ** Staging and replacement (C7, C10) *)

Lemma append_ne (s t : string) : t <> EmptyString -> s <> s +:+ t.
Proof.
  intros Ht. induction s as [ | c s IH].
  - rewrite str_app_nil. congruence.
  - rewrite str_app_cons. intros [= E]. exact (IH E).
Qed.

Lemma staging_path_ne (entry : BundleDictionaryEntry) :
  staging_path entry <> Path entry.
Proof. intros E. symmetry in E. revert E. apply append_ne. discriminate. Qed.

Section Replace.
Context {R : Runtime} {Rm : Remote} {G : Gzip}.

(** [fetchAndReplace] from the fetch to the comparison of the digests,
    when the payload arrives and can be staged: the staged file holds
    what was fetched, and the comparison decides between the error and
    the rename, whose error is dropped. *)
Lemma fetchAndReplace_staged (entry : BundleDictionaryEntry) (sig : string)
    (w : world) (data filebuf : list byte) :
  post_fetch (fetch_params (Name entry)) = ReplyValue data ->
  gunzip data = Ok filebuf ->
  can_stage entry filebuf w ->
  fetchAndReplace entry sig w
  = if negb (String.eqb sig (sha256_hex filebuf))
    then (staged entry filebuf w, Err (Errorf "staged file signature mismatch"))
    else (fst (os_Rename (staging_path entry) (Path entry) (staged entry filebuf w)),
          Ok tt).
Proof.
  intros Hreply Hgz [Hnode Hroom].
  unfold fetchAndReplace, fetchFile. fold (fetch_params (Name entry)).
  unfold bind at 1. unfold bind at 1. unfold log at 1.
  rewrite Hreply. unfold lift at 1. rewrite Hgz.
  fold (staging_path entry). fold fetch_url.
  unfold bind at 1. unfold os_OpenFile_trunc, bind at 1, log at 1.
  cbn [files emit].
  assert (Hgoal : forall w1 : world,
            files w1 = <[staging_path entry := File []]> (files w) ->
            free w1 = free w + node_size (files w !! staging_path entry) ->
            arrays w1 = arrays w -> apiManifest w1 = apiManifest w ->
            trace w1 = trace w ++ [NetPost fetch_url (fetch_params (Name entry));
                                   FsCreate (staging_path entry)] ->
            (do_ fd_Write (FdWrite (staging_path entry)) filebuf;
             do fd <- os_Open (staging_path entry);
             do h <- lift (hash_stream fd sha256_New);
             if negb (String.eqb sig (Sprintf_x (hash_Sum h)))
             then fail (Errorf "staged file signature mismatch")
             else fun w2 =>
                    let (w', _) := os_Rename (staging_path entry) (Path entry) w2 in
                    (w', Ok tt)) w1
            = if negb (String.eqb sig (sha256_hex filebuf))
              then (staged entry filebuf w, Err (Errorf "staged file signature mismatch"))
              else (fst (os_Rename (staging_path entry) (Path entry) (staged entry filebuf w)),
                    Ok tt)).
  { intros w1 Hf Hfr Ha Hm Ht.
    unfold bind at 1. unfold fd_Write, bind at 1, log at 1. cbn [free emit].
    rewrite decide_True by (rewrite Hfr; exact Hroom).
    unfold bind at 1. rewrite os_Open_eq. cbn [files emit set_files set_free].
    rewrite lookup_insert_eq.
    unfold bind at 1, lift at 1. rewrite hash_stream_file.
    unfold sha256_hex, hash_Write. 
    assert (Hw : emit (FsOpen (staging_path entry))
                   (set_free (free w1 - length filebuf)
                      (set_files (<[staging_path entry := File filebuf]> (files w1))
                         (emit (FsWrite (staging_path entry) filebuf) w1)))
                 = staged entry filebuf w).
    { unfold staged, emit, set_free, set_files. cbn [files free arrays apiManifest trace].
      rewrite Hf, Hfr, Ha, Hm, Ht, insert_insert_eq, <- !app_assoc. reflexivity. }
    rewrite Hw.
    destruct (negb (String.eqb sig _)).
    - reflexivity.
    - destruct (os_Rename _ _ _). reflexivity. }
  destruct Hnode as [Hnone | [old Hold]].
  - rewrite Hnone. apply Hgoal; cbn [files free arrays apiManifest trace set_files emit];
      try reflexivity.
    + rewrite Hnone. cbn [node_size]. lia.
    + rewrite <- app_assoc. reflexivity.
  - rewrite Hold. apply Hgoal;
      cbn [files free arrays apiManifest trace set_files set_free emit];
      try reflexivity.
    + rewrite Hold. reflexivity.
    + rewrite <- app_assoc. reflexivity.
Qed.

(** C7. When what was fetched and staged does not have the digest of
    the manifest, [fetchAndReplace] returns the error "staged file
    signature mismatch" and has renamed nothing: the target path names
    what it named before, and the staged file, at the target path with
    the suffix [.loader], is on disk with what was fetched. *)
Theorem staged_mismatch_keeps_target (entry : BundleDictionaryEntry) (sig : string)
    (w : world) (data filebuf : list byte) :
  post_fetch (fetch_params (Name entry)) = ReplyValue data ->
  gunzip data = Ok filebuf ->
  can_stage entry filebuf w ->
  sha256_hex filebuf <> sig ->
  exists w',
    fetchAndReplace entry sig w
    = (w', Err (Errorf "staged file signature mismatch"))
    /\ files w' !! Path entry = files w !! Path entry
    /\ files w' !! (Path entry +:+ ".loader") = Some (File filebuf)
    /\ List.filter is_rename_event (trace w')
       = List.filter is_rename_event (trace w).
Proof.
  intros Hreply Hgz Hstage Hne.
  exists (staged entry filebuf w). split; [ | split; [ | split]].
  - rewrite (fetchAndReplace_staged entry sig w data filebuf) by assumption.
    assert (E : String.eqb sig (sha256_hex filebuf) = false)
      by (apply String.eqb_neq; congruence).
    rewrite E. reflexivity.
  - cbn [staged files]. apply lookup_insert_ne, staging_path_ne.
  - cbn [staged files]. apply lookup_insert_eq.
  - cbn [staged trace]. rewrite List.filter_app. cbn. apply app_nil_r.
Qed.

(** C10. When what was fetched and staged has the digest of the
    manifest, [fetchAndReplace] returns nil whatever [os.Rename]
    returned: its error is assigned and dropped. *)
Theorem fetchAndReplace_ignores_rename_error (entry : BundleDictionaryEntry)
    (sig : string) (w : world) (data filebuf : list byte) :
  post_fetch (fetch_params (Name entry)) = ReplyValue data ->
  gunzip data = Ok filebuf ->
  can_stage entry filebuf w ->
  sha256_hex filebuf = sig ->
  forall (w' : world) (renamed : result unit),
    os_Rename (staging_path entry) (Path entry) (staged entry filebuf w) = (w', renamed) ->
    fetchAndReplace entry sig w = (w', Ok tt).
Proof.
  intros Hreply Hgz Hstage <- w' renamed Hren.
  rewrite (fetchAndReplace_staged entry _ w data filebuf) by assumption.
  rewrite String.eqb_refl, Hren. reflexivity.
Qed.

(** Renaming onto a directory fails and changes no file. *)
Lemma os_Rename_onto_directory (old new : string) (w : world) (content : list byte) :
  old <> new ->
  files w !! old = Some (File content) ->
  files w !! new = Some Dir ->
  os_Rename old new w
  = (emit (FsRename old new) w, Err (LinkError "rename" old new EISDIR)).
Proof.
  intros Hne Hold Hnew. unfold os_Rename, bind, log. cbn [files emit].
  rewrite Hold, Hnew, decide_False by exact Hne. reflexivity.
Qed.

(** *** The trace only grows *)

Ltac trace_kept :=
  split; [reflexivity | split; [reflexivity | exists []; cbn; symmetry; apply app_nil_r]].

Lemma extends_refl (w : world) : extends w w.
Proof. trace_kept. Qed.

Lemma extends_trans (w1 w2 w3 : world) :
  extends w1 w2 -> extends w2 w3 -> extends w1 w3.
Proof.
  intros (Ha1 & Hm1 & m1 & H1) (Ha2 & Hm2 & m2 & H2).
  split; [congruence | split; [congruence | ]].
  exists (m1 ++ m2). rewrite H2, H1, app_assoc. reflexivity.
Qed.

Lemma extends_emit (e : event) (w : world) : extends w (emit e w).
Proof. split; [reflexivity | split; [reflexivity | exists [e]; reflexivity]]. Qed.

Lemma grows_bind {A B} (c : M A) (k : A -> M B) :
  grows c -> (forall a, grows (k a)) -> grows (bind c k).
Proof.
  intros Hc Hk w. unfold bind. specialize (Hc w).
  destruct (c w) as [w1 [a | e | msg]]; cbn [fst] in *; try exact Hc.
  eapply extends_trans; [exact Hc | apply Hk].
Qed.

Lemma grows_pure {A} (r : result A) : grows (lift r).
Proof. intros w. apply extends_refl. Qed.

Lemma grows_log (e : event) : grows (log e).
Proof. intros w. apply extends_emit. Qed.

Lemma grows_os_Open (path : string) : grows (os_Open path).
Proof. intros w. rewrite os_Open_eq. apply extends_emit. Qed.

Lemma grows_os_OpenFile_trunc (path : string) : grows (os_OpenFile_trunc path).
Proof.
  apply grows_bind; [apply grows_log | ]. intros _ w.
  destruct (files w !! path) as [[ | | ] | ]; trace_kept.
Qed.

Lemma grows_fd_Write (f : fd) (p : list byte) : grows (fd_Write f p).
Proof.
  destruct f; cbn [fd_Write]; try (intros w; trace_kept).
  apply grows_bind; [apply grows_log | ]. intros _ w.
  destruct (decide _); trace_kept.
Qed.

Lemma grows_os_Rename (old new : string) : grows (os_Rename old new).
Proof.
  apply grows_bind; [apply grows_log | ]. intros _ w.
  destruct (files w !! old) as [n | ]; [ | trace_kept].
  destruct (decide _); [trace_kept | ].
  destruct (files w !! new) as [[ | | ] | ], n; trace_kept.
Qed.

(** [fetchAndReplace] begins by posting the fetch request for the
    entry. *)
Lemma fetchAndReplace_posts (entry : BundleDictionaryEntry) (sig : string) (w : world) :
  extends (emit (NetPost fetch_url (fetch_params (Name entry))) w)
          (fst (fetchAndReplace entry sig w)).
Proof.
  unfold fetchAndReplace, fetchFile. fold (fetch_params (Name entry)). fold fetch_url.
  unfold bind at 1. unfold bind at 1. unfold log at 1.
  set (w1 := emit _ w).
  destruct (post_fetch (fetch_params (Name entry))) as [e | | e | data];
    try apply extends_refl.
  unfold lift at 1. destruct (gunzip data) as [filebuf | e | msg];
    try apply extends_refl.
  revert w1. 
  apply (grows_bind (os_OpenFile_trunc _)); [apply grows_os_OpenFile_trunc | intros f].
  apply grows_bind; [apply grows_fd_Write | intros _].
  apply grows_bind; [apply grows_os_Open | intros f'].
  apply grows_bind; [apply grows_pure | intros h].
  destruct (negb _); [intros w2; apply extends_refl | ].
  intros w2. pose proof (grows_os_Rename (Path entry +:+ ".loader") (Path entry) w2) as Hr.
  destruct (os_Rename _ _ w2). exact Hr.
Qed.

(** ** Reconciliation (C1, C2) *)

Lemma grows_fetchAndReplace (entry : BundleDictionaryEntry) (sig : string) :
  grows (fetchAndReplace entry sig).
Proof.
  intros w. eapply extends_trans; [ | apply fetchAndReplace_posts]. apply extends_emit.
Qed.

Lemma grows_checkEntry (entry : BundleDictionaryEntry) : grows (checkEntry entry).
Proof.
  unfold checkEntry. apply grows_bind; [apply grows_log | intros _ w ].
  destruct (apiManifest w) as [manifest | ]; [ | apply extends_refl].
  destruct (find _ _) as [compare | ].
  - revert w. repeat (apply grows_bind; [try apply grows_log | intros _]).
    + destruct (String.eqb _ _); [apply grows_log | intros w; apply extends_refl].
    + apply grows_fetchAndReplace.
  - revert w. apply grows_bind; [apply grows_log | intros _ w; apply extends_refl].
Qed.

(** An entry the manifest lists is refreshed, whether the digests
    differ or not. *)
Lemma checkEntry_found (entry : BundleDictionaryEntry) (w : world)
    (manifest : ManifestResponse) (compare : ManifestEntry) :
  apiManifest w = Some manifest ->
  find (fun x => String.eqb (me_Name x) (Name entry)) (Entries manifest) = Some compare ->
  checkEntry entry w
  = fetchAndReplace entry (me_SHA256 compare) (add_trace (check_lines entry compare) w).
Proof.
  intros Hm Hfind.
  unfold checkEntry. unfold bind at 1, Fprintf_Stderr at 1, log at 1.
  cbn [apiManifest emit]. rewrite Hm, Hfind.
  unfold check_lines.
  destruct (String.eqb (SHA256 entry) (me_SHA256 compare));
    unfold bind, Fprintf_Stderr, log, ret; f_equal;
    unfold add_trace, emit; cbn [files free arrays apiManifest trace app];
    rewrite <- ?app_assoc; reflexivity.
Qed.

(** An entry the manifest does not list is left alone. *)
Lemma checkEntry_not_found (entry : BundleDictionaryEntry) (w : world)
    (manifest : ManifestResponse) :
  apiManifest w = Some manifest ->
  find (fun x => String.eqb (me_Name x) (Name entry)) (Entries manifest) = None ->
  checkEntry entry w
  = (add_trace
       [ Stderr ("checkEntry() -> Comparing " +:+ Name entry +:+ " " +:+ Path entry);
         Stderr "checkEntry() -> entry not in manifest, ignoring" ] w,
     Ok tt).
Proof.
  intros Hm Hfind.
  unfold checkEntry. unfold bind at 1, Fprintf_Stderr at 1, log at 1.
  cbn [apiManifest emit]. rewrite Hm, Hfind.
  unfold bind, Fprintf_Stderr, log, ret. f_equal.
  unfold add_trace, emit. cbn [files free arrays apiManifest trace].
  rewrite <- app_assoc. reflexivity.
Qed.

(** A staged-integrity failure is an error of [checkEntry]. *)
Lemma checkEntry_staged_mismatch (entry : BundleDictionaryEntry) (w : world)
    (manifest : ManifestResponse) (compare : ManifestEntry) (data filebuf : list byte) :
  apiManifest w = Some manifest ->
  find (fun x => String.eqb (me_Name x) (Name entry)) (Entries manifest) = Some compare ->
  post_fetch (fetch_params (Name entry)) = ReplyValue data ->
  gunzip data = Ok filebuf ->
  can_stage entry filebuf w ->
  sha256_hex filebuf <> me_SHA256 compare ->
  checkEntry entry w
  = (staged entry filebuf (add_trace (check_lines entry compare) w),
     Err (Errorf "staged file signature mismatch")).
Proof.
  intros Hm Hfind Hreply Hgz Hstage Hne.
  rewrite (checkEntry_found entry w manifest compare Hm Hfind).
  rewrite (fetchAndReplace_staged entry _ _ data filebuf Hreply Hgz) by exact Hstage.
  assert (E : String.eqb (me_SHA256 compare) (sha256_hex filebuf) = false)
    by (apply String.eqb_neq; congruence).
  rewrite E. reflexivity.
Qed.

(** C1, on the code. For an entry that the manifest lists with the
    digest the entry has, [checkEntry] prints "Nothing to do here..."
    and goes on to refresh the entry: it is [fetchAndReplace] on that
    entry, which posts the fetch request. *)
Theorem checkEntry_refreshes_current_entry (entry : BundleDictionaryEntry)
    (w : world) (manifest : ManifestResponse) (compare : ManifestEntry) :
  apiManifest w = Some manifest ->
  find (fun x => String.eqb (me_Name x) (Name entry)) (Entries manifest) = Some compare ->
  SHA256 entry = me_SHA256 compare ->
  checkEntry entry w
  = fetchAndReplace entry (SHA256 entry) (add_trace (nothing_to_do_lines entry) w)
  /\ exists more,
       trace (fst (checkEntry entry w))
       = trace w ++ nothing_to_do_lines entry
           ++ NetPost fetch_url (fetch_params (Name entry)) :: more.
Proof.
  intros Hm Hfind Hsame.
  assert (Hrun : checkEntry entry w
                 = fetchAndReplace entry (SHA256 entry)
                     (add_trace (nothing_to_do_lines entry) w)).
  { rewrite (checkEntry_found entry w manifest compare Hm Hfind).
    unfold check_lines, nothing_to_do_lines.
    rewrite <- Hsame, String.eqb_refl. reflexivity. }
  split; [exact Hrun | ].
  rewrite Hrun.
  destruct (fetchAndReplace_posts entry (SHA256 entry)
              (add_trace (nothing_to_do_lines entry) w)) as (_ & _ & more & Hmore).
  exists more. rewrite Hmore. cbn [emit add_trace trace].
  rewrite <- !app_assoc. reflexivity.
Qed.

Lemma compareManifest_range_app (have : slice) (l1 l2 : list nat) (w : world) :
  compareManifest_range have (l1 ++ l2) w
  = match compareManifest_range have l1 w with
    | (w1, Ok _) => compareManifest_range have l2 w1
    | other => other
    end.
Proof.
  revert w. induction l1 as [ | i l1 IH]; intros w; [reflexivity | ].
  cbn [app compareManifest_range]. unfold bind.
  destruct (index have i w) as [w0 [x | e | msg]]; try reflexivity.
  destruct (checkEntry x w0) as [w1 [[] | e | msg]]; try reflexivity.
  apply IH.
Qed.

Lemma grows_compareManifest_range (have : slice) (l : list nat) :
  grows (compareManifest_range have l).
Proof.
  induction l as [ | i l IH]; [intros w; apply extends_refl | ].
  cbn [compareManifest_range].
  apply grows_bind; [ | intros x; apply grows_bind; [apply grows_checkEntry | intros _; exact IH]].
  intros w. unfold index. destruct (elems have w !! i); apply extends_refl.
Qed.

(** C2, as the code has it. When [checkEntry] returns an error on an
    entry of the snapshot, staged-integrity failures included, after
    the entries before it were processed without error,
    [compareManifest] returns that error in the world [checkEntry]
    left: whatever entries come after it, none is processed. *)
Theorem compareManifest_stops_at_first_error (have : slice) (w w1 w2 : world)
    (pre post : list BundleDictionaryEntry) (x : BundleDictionaryEntry) (err : error) :
  elems have w = pre ++ x :: post ->
  compareManifest_range have (seq 0 (length pre)) w = (w1, Ok tt) ->
  checkEntry x w1 = (w2, Err err) ->
  compareManifest have w = (w2, Err err).
Proof.
  intros Helems Hpre Hx. unfold compareManifest.
  rewrite Helems, length_app. cbn [length]. rewrite seq_app.
  rewrite compareManifest_range_app, Hpre.
  cbn [seq plus compareManifest_range]. unfold bind at 1.
  rewrite (index_eq _ _ _ x).
  - unfold bind at 1. rewrite Hx. reflexivity.
  - destruct (grows_compareManifest_range have (seq 0 (length pre)) w) as (Ha & _).
    rewrite Hpre in Ha. cbn [fst] in Ha.
    assert (E : elems have w1 = elems have w).
    { destruct have; cbn [elems]; [reflexivity | rewrite Ha; reflexivity]. }
    rewrite E, Helems. apply list_lookup_middle. reflexivity.
Qed.

End Replace.

Lemma staged_mismatch_keeps_target_witness :
  exists w',
    @fetchAndReplace linux_amd64 tampered_remote stored_gzip
      have_agent_v1 agent_v2_digest outdated_world
    = (w', Err (Errorf "staged file signature mismatch"))
    /\ files w' !! "/sbin/mig-agent" = Some (File agent_v1)
    /\ files w' !! ("/sbin/mig-agent" +:+ ".loader")
       = Some (File (list_byte_of_string "not the agent"))
    /\ List.filter is_rename_event (trace w') = [].
Proof.
  apply (@staged_mismatch_keeps_target linux_amd64 tampered_remote stored_gzip
           have_agent_v1 agent_v2_digest outdated_world
           (StoredGzip.compress (list_byte_of_string "not the agent"))
           (list_byte_of_string "not the agent")).
  - reflexivity.
  - vm_compute. reflexivity.
  - split; [left; reflexivity | vm_compute; lia].
  - vm_compute. discriminate.
Defined.

Lemma fetchAndReplace_ignores_rename_error_witness :
  exists w',
    os_Rename "/sbin/mig-agent.loader" "/sbin/mig-agent"
      (@staged linux_amd64 good_remote have_agent_v1 agent_v2 agent_dir_world)
    = (w', Err (LinkError "rename" "/sbin/mig-agent.loader" "/sbin/mig-agent" EISDIR))
    /\ @fetchAndReplace linux_amd64 good_remote stored_gzip
         have_agent_v1 agent_v2_digest agent_dir_world
       = (w', Ok tt)
    /\ files w' !! "/sbin/mig-agent" = Some Dir.
Proof.
  eexists. split; [ | split].
  - apply (os_Rename_onto_directory _ _ _ agent_v2); [discriminate | reflexivity | reflexivity].
  - apply (@fetchAndReplace_ignores_rename_error linux_amd64 good_remote stored_gzip
             have_agent_v1 agent_v2_digest agent_dir_world
             (StoredGzip.compress agent_v2) agent_v2) with
      (renamed := Err (LinkError "rename" "/sbin/mig-agent.loader" "/sbin/mig-agent" EISDIR)).
    + reflexivity.
    + vm_compute. reflexivity.
    + split; [left; reflexivity | vm_compute; lia].
    + vm_compute. reflexivity.
    + apply (os_Rename_onto_directory _ _ _ agent_v2); [discriminate | reflexivity | reflexivity].
  - reflexivity.
Defined.

Lemma checkEntry_refreshes_current_entry_witness :
  @checkEntry linux_amd64 good_remote stored_gzip have_agent_v2 current_checked_world
  = @fetchAndReplace linux_amd64 good_remote stored_gzip have_agent_v2 agent_v2_digest
      (add_trace (nothing_to_do_lines have_agent_v2) current_checked_world)
  /\ exists more,
       trace (fst (@checkEntry linux_amd64 good_remote stored_gzip
                     have_agent_v2 current_checked_world))
       = trace current_checked_world ++ nothing_to_do_lines have_agent_v2
           ++ NetPost (@fetch_url good_remote)
                (@fetch_params linux_amd64 good_remote "agent") :: more.
Proof.
  apply (@checkEntry_refreshes_current_entry linux_amd64 good_remote stored_gzip
           have_agent_v2 current_checked_world manifest_default
           {| me_Name := "agent"; me_SHA256 := agent_v2_digest |}); reflexivity.
Defined.

(** C1 on a host that is up to date: the run fetches and rewrites both
    artifacts, and so does the run after it. *)
Example reconciliation_twice_rewrites :
  let run := @main linux_amd64 good_remote stored_gzip in
  let first := run current_world in
  let second := run (restart (fst first)) in
  snd first = 0 /\ snd second = 0
  /\ files (fst first) = files current_world
  /\ files (fst second) = files current_world
  /\ List.filter is_write_event (trace (fst first))
     = [ FsCreate "/sbin/mig-agent.loader";
         FsWrite "/sbin/mig-agent.loader" agent_v2;
         FsRename "/sbin/mig-agent.loader" "/sbin/mig-agent";
         FsCreate "/etc/mig/mig-agent.cfg.loader";
         FsWrite "/etc/mig/mig-agent.cfg.loader" agent_cfg;
         FsRename "/etc/mig/mig-agent.cfg.loader" "/etc/mig/mig-agent.cfg" ]
  /\ length (List.filter is_write_event (trace (fst second))) = 12.
Proof. vm_compute. repeat split; reflexivity. Qed.

Lemma compareManifest_stops_at_first_error_witness :
  exists w2,
    @checkEntry linux_amd64 tampered_remote stored_gzip have_agent_v1 outdated_world
    = (w2, Err (Errorf "staged file signature mismatch"))
    /\ @compareManifest linux_amd64 tampered_remote stored_gzip (slice_of 0) outdated_world
       = (w2, Err (Errorf "staged file signature mismatch")).
Proof.
  exists (fst (@checkEntry linux_amd64 tampered_remote stored_gzip
                 have_agent_v1 outdated_world)).
  assert (Hx : @checkEntry linux_amd64 tampered_remote stored_gzip
                 have_agent_v1 outdated_world
               = (fst (@checkEntry linux_amd64 tampered_remote stored_gzip
                         have_agent_v1 outdated_world),
                  Err (Errorf "staged file signature mismatch")))
    by (vm_compute; reflexivity).
  split; [exact Hx | ].
  apply (@compareManifest_stops_at_first_error linux_amd64 tampered_remote stored_gzip
           (slice_of 0) outdated_world outdated_world _
           [] [entry_configuration] have_agent_v1 _).
  - reflexivity.
  - reflexivity.
  - exact Hx.
Defined.

(** C2, as the claim has it, fails: the staged agent does not have the
    digest of the manifest, [compareManifest] returns that error, and
    the configuration, which the manifest lists and the host lacks,
    has not been looked at. *)
Lemma compareManifest_skips_remaining_entries :
  let w' := fst (@compareManifest linux_amd64 tampered_remote stored_gzip
                   (slice_of 0) outdated_world) in
  snd (@compareManifest linux_amd64 tampered_remote stored_gzip (slice_of 0) outdated_world)
  = Err (Errorf "staged file signature mismatch")
  /\ elems (slice_of 0) outdated_world = [have_agent_v1; entry_configuration]
  /\ compared have_agent_v1 w'
  /\ ~ compared entry_configuration w'
  /\ files w' !! "/etc/mig/mig-agent.cfg" = None.
Proof.
  split; [vm_compute; reflexivity | ].
  split; [reflexivity | ].
  split; [vm_compute; tauto | ].
  split; [ | vm_compute; reflexivity].
  intros H. vm_compute in H.
  repeat (destruct H as [H | H]; [discriminate H | ]). exact H.
Qed.

(** ** Paths under the manifest root *)

Section Paths.

Lemma str_app_assoc (a b c : string) : (a +:+ b) +:+ c = a +:+ b +:+ c.
Proof.
  induction a as [ | x a IH]; [reflexivity | ].
  rewrite !str_app_cons, IH. reflexivity.
Qed.

Lemma components_nonempty (s : string) : components s <> [].
Proof.
  destruct s as [ | c tl]; cbn [components]; [discriminate | ].
  destruct (components tl); [discriminate | ].
  destruct (Ascii.eqb c "/"); discriminate.
Qed.

Lemma components_snoc (s e : string) :
  components e = [e] -> components (s +:+ "/" +:+ e) = components s ++ [e].
Proof.
  intros He. induction s as [ | c s IH].
  - rewrite str_app_nil, str_app_cons, str_app_nil. cbn [components].
    rewrite He. reflexivity.
  - rewrite str_app_cons. cbn [components]. rewrite IH.
    pose proof (components_nonempty s) as Hne.
    destruct (components s) as [ | hd rest]; [congruence | ].
    cbn [app]. destruct (Ascii.eqb c "/"); reflexivity.
Qed.

Lemma clean_step_plain (rooted : bool) (kept : list string) (e : string) :
  plain e -> clean_step rooted kept e = e :: kept.
Proof.
  intros (H1 & H2 & H3 & _). unfold clean_step.
  apply String.eqb_neq in H1, H2, H3. rewrite H1, H2, H3. reflexivity.
Qed.

Lemma join_slash_snoc (l : list string) (e : string) :
  l <> [] -> join_slash (l ++ [e]) = join_slash l +:+ "/" +:+ e.
Proof.
  induction l as [ | a [ | b tl] IH]; intros Hne; [congruence | reflexivity | ].
  change (join_slash ((a :: b :: tl) ++ [e]))
    with (a +:+ "/" +:+ join_slash ((b :: tl) ++ [e])).
  rewrite IH by discriminate.
  change (join_slash (a :: b :: tl)) with (a +:+ "/" +:+ join_slash (b :: tl)).
  rewrite !str_app_assoc. reflexivity.
Qed.

Lemma is_rooted_app (s t : string) :
  is_rooted s = true -> is_rooted (s +:+ t) = true.
Proof. destruct s; [discriminate | rewrite str_app_cons; trivial]. Qed.

(** A plain element added under a clean root gives a clean root. *)
Lemma clean_root_snoc (s e : string) :
  clean_root s -> plain e -> clean_root (s +:+ "/" +:+ e).
Proof.
  intros (Hroot & Hclean & Hne) He. split; [ | split].
  - apply is_rooted_app. exact Hroot.
  - unfold path_Clean in *. rewrite is_rooted_app by exact Hroot.
    rewrite Hroot in Hclean.
    rewrite components_snoc by apply He.
    rewrite fold_left_app. cbn [fold_left]. rewrite clean_step_plain by exact He.
    cbn [rev]. rewrite join_slash_snoc.
    + rewrite <- str_app_assoc, Hclean. reflexivity.
    + intros Hnil. rewrite Hnil in Hclean. apply Hne. rewrite <- Hclean. reflexivity.
  - destruct s as [ | c s]; [discriminate | ].
    rewrite str_app_cons. intros [= _ E]. apply app_empty_inv in E as [_ E]. discriminate.
Qed.

Lemma alnum_plain (s : string) : MatchString pre s = true -> plain s.
Proof.
  rewrite MatchString_pre. intros Hm. apply andb_true_iff in Hm as [Hne Hall].
  assert (Hdot : forall t, all_chars is_alnum (String "." t) = false) by reflexivity.
  repeat split.
  - intros ->. discriminate.
  - intros ->. rewrite Hdot in Hall. discriminate.
  - intros ->. rewrite Hdot in Hall. discriminate.
  - clear Hne Hdot. destruct s as [ | c0 s0]; [reflexivity | ].
    revert c0 Hall. induction s0 as [ | c tl IH]; intros c0 Hall.
    + cbn in *. destruct (Ascii.eqb c0 "/") eqn:E; [ | reflexivity].
      apply Ascii.eqb_eq in E. subst c0. discriminate.
    + cbn [all_chars] in Hall. apply andb_true_iff in Hall as [Hc0 Hall].
      cbn [components]. rewrite (IH c Hall) at 1. 
      destruct (Ascii.eqb c0 "/") eqn:E; [ | reflexivity].
      apply Ascii.eqb_eq in E. subst c0. discriminate.
Qed.

End Paths.


Section Clean.

Lemma no_slash_cons (c : ascii) (e : string) :
  no_slash (String c e) -> c <> "/"%char /\ no_slash e.
Proof.
  unfold no_slash. cbn [components].
  pose proof (components_nonempty e) as Hne.
  destruct (components e) as [ | hd rest]; [congruence | ].
  destruct (Ascii.eqb c "/") eqn:E; [discriminate | ].
  intros [= -> ->]. split; [ | reflexivity].
  intros ->. discriminate.
Qed.

Lemma components_no_slash (s : string) : Forall no_slash (components s).
Proof.
  induction s as [ | c tl IH]; cbn [components].
  - constructor; [reflexivity | constructor].
  - pose proof (components_nonempty tl) as Hne.
    destruct (components tl) as [ | hd rest]; [congruence | ].
    apply Forall_cons in IH as [Hhd Hrest].
    destruct (Ascii.eqb c "/") eqn:E.
    + constructor; [reflexivity | constructor; assumption].
    + constructor; [ | assumption].
      unfold no_slash in *. cbn [components]. rewrite Hhd, E. reflexivity.
Qed.

Lemma components_cons (e t : string) :
  no_slash e -> components (e +:+ "/" +:+ t) = e :: components t.
Proof.
  induction e as [ | c e IH]; intros He.
  - rewrite str_app_nil, str_app_cons, str_app_nil. cbn [components].
    pose proof (components_nonempty t) as Hne.
    destruct (components t); [congruence | reflexivity].
  - apply no_slash_cons in He as [Hc He].
    rewrite str_app_cons. cbn [components]. rewrite (IH He).
    destruct (Ascii.eqb c "/") eqn:E; [ | reflexivity].
    apply Ascii.eqb_eq in E. congruence.
Qed.

Lemma components_join (K : list string) :
  K <> [] -> Forall no_slash K -> components (join_slash K) = K.
Proof.
  induction K as [ | e [ | e' K'] IH]; intros Hne Hall; [congruence | | ].
  - apply Forall_cons in Hall as [He _]. exact He.
  - apply Forall_cons in Hall as [He Hall].
    change (join_slash (e :: e' :: K')) with (e +:+ "/" +:+ join_slash (e' :: K')).
    rewrite components_cons by exact He. rewrite IH; [reflexivity | discriminate | exact Hall].
Qed.

Lemma components_slash (t : string) :
  components (String "/" t) = EmptyString :: components t.
Proof.
  cbn [components]. pose proof (components_nonempty t) as Hne.
  destruct (components t); [congruence | reflexivity].
Qed.

Lemma dotdot_no_slash : no_slash "..".
Proof. reflexivity. Qed.

Lemma kept_ok_no_slash (rooted : bool) (kept : list string) :
  kept_ok rooted kept -> Forall no_slash kept.
Proof.
  intros (plains & dots & -> & Hp & Hd & _). apply Forall_app. split.
  - eapply Forall_impl; [exact Hp | ]. intros e He. apply He.
  - eapply Forall_impl; [exact Hd | ]. intros e ->. apply dotdot_no_slash.
Qed.

Lemma clean_step_ok (rooted : bool) (kept : list string) (e : string) :
  no_slash e -> kept_ok rooted kept -> kept_ok rooted (clean_step rooted kept e).
Proof.
  intros He (plains & dots & -> & Hp & Hd & Hr). unfold clean_step.
  destruct (String.eqb e "") eqn:E1; [exists plains, dots; auto | ].
  destruct (String.eqb e ".") eqn:E2; [exists plains, dots; auto | ].
  cbn [orb]. apply String.eqb_neq in E1, E2.
  destruct (String.eqb e "..") eqn:E3.
  - destruct plains as [ | p plains].
    + cbn [app]. destruct dots as [ | d dots].
      * destruct rooted.
        -- exists [], []. auto.
        -- exists [], [".."]. repeat split; auto. discriminate.
      * apply Forall_cons in Hd as [-> Hd]. cbn [String.eqb Ascii.eqb Bool.eqb].
        destruct rooted; [discriminate (Hr eq_refl) | ].
        exists [], (".." :: ".." :: dots).
        split; [reflexivity | split; [constructor | split; [ | discriminate]]].
        repeat constructor. exact Hd.
    + apply Forall_cons in Hp as [Hp0 Hp]. cbn [app].
      destruct (String.eqb p "..") eqn:E4.
      * apply String.eqb_eq in E4. destruct Hp0 as (_ & _ & Hdd & _). congruence.
      * exists plains, dots. auto.
  - apply String.eqb_neq in E3.
    exists (e :: plains), dots. repeat split; auto.
    constructor; [repeat split; assumption | exact Hp].
Qed.

Lemma fold_clean_ok (rooted : bool) (es : list string) :
  Forall no_slash es ->
  forall kept, kept_ok rooted kept -> kept_ok rooted (fold_left (clean_step rooted) es kept).
Proof.
  induction es as [ | e es IH]; intros Hall kept Hk; [exact Hk | ].
  apply Forall_cons in Hall as [He Hall]. cbn [fold_left].
  apply IH; [exact Hall | apply clean_step_ok; assumption].
Qed.

Lemma kept_ok_nil (rooted : bool) : kept_ok rooted [].
Proof. exists [], []. repeat split; auto. Qed.

(** Scanning the kept elements again keeps them all. *)
Lemma fold_clean_replay (rooted : bool) (kept : list string) :
  kept_ok rooted kept -> fold_left (clean_step rooted) (rev kept) [] = kept.
Proof.
  intros (plains & dots & -> & Hp & Hd & Hr).
  rewrite rev_app_distr, fold_left_app.
  assert (Hdots : fold_left (clean_step rooted) (rev dots) [] = dots).
  { destruct rooted; [rewrite (Hr eq_refl); reflexivity | ]. clear Hr.
    assert (Hrev : rev dots = dots).
    { clear Hp. induction dots as [ | d dots IH]; [reflexivity | ].
      apply Forall_cons in Hd as [-> Hd]. cbn [rev]. rewrite (IH Hd).
      clear IH. induction dots as [ | d dots IH]; [reflexivity | ].
      apply Forall_cons in Hd as [-> Hd]. cbn [app]. rewrite (IH Hd). reflexivity. }
    rewrite Hrev. clear Hrev Hp.
    assert (Hgen : forall acc, Forall (fun e => e = "..") acc ->
              fold_left (clean_step false) dots acc = dots ++ acc).
    { induction dots as [ | d dots IH]; intros acc Hacc; [reflexivity | ].
      apply Forall_cons in Hd as [-> Hd]. cbn [fold_left].
      assert (Hstep : clean_step false acc ".." = ".." :: acc).
      { destruct acc as [ | a acc]; [reflexivity | ].
        apply Forall_cons in Hacc as [-> _]. reflexivity. }
      rewrite Hstep, (IH Hd) by (constructor; auto).
      clear IH. cbn [app]. 
      assert (Hcomm : forall l : list string,
                Forall (fun e => e = "..") l -> l ++ ".." :: acc = ".." :: l ++ acc).
      { induction l as [ | x l IHl]; intros Hl; [reflexivity | ].
        apply Forall_cons in Hl as [-> Hl]. cbn [app]. rewrite (IHl Hl). reflexivity. }
      apply Hcomm, Hd. }
    rewrite Hgen by constructor. apply app_nil_r. }
  rewrite Hdots. clear Hdots Hd Hr.
  assert (Hgen : forall acc, fold_left (clean_step rooted) (rev plains) acc = plains ++ acc).
  { induction plains as [ | p plains IH]; intros acc; [reflexivity | ].
    apply Forall_cons in Hp as [Hp0 Hp]. cbn [rev]. rewrite fold_left_app.
    cbn [fold_left]. rewrite (IH Hp), clean_step_plain by exact Hp0. reflexivity. }
  apply Hgen.
Qed.

Lemma str_app_nil_r (s : string) : s +:+ EmptyString = s.
Proof. induction s as [ | c s IH]; [reflexivity | rewrite str_app_cons, IH; reflexivity]. Qed.

Lemma join_head (e0 : string) (K : list string) :
  exists t, join_slash (e0 :: K) = e0 +:+ t
            /\ (K = [] -> t = EmptyString)
            /\ (K <> [] -> exists t', t = String "/" t').
Proof.
  destruct K as [ | e1 K].
  - exists EmptyString. cbn [join_slash]. rewrite str_app_nil_r.
    repeat split; congruence.
  - exists ("/" +:+ join_slash (e1 :: K)). repeat split; [discriminate | ].
    intros _. eexists. reflexivity.
Qed.

(** What the kept elements look like, first one first. *)
Lemma kept_head (rooted : bool) (e0 : string) (K : list string) :
  kept_ok rooted (rev (e0 :: K)) ->
  exists c r, e0 = String c r /\ c <> "/"%char /\ e0 <> ".".
Proof.
  intros Hk.
  assert (Hin : In e0 (rev (e0 :: K))) by (apply in_rev; rewrite rev_involutive; left; reflexivity).
  destruct Hk as (plains & dots & E & Hp & Hd & _). rewrite E in Hin.
  assert (Hfacts : e0 <> "" /\ e0 <> "." /\ no_slash e0).
  { apply in_app_or in Hin as [Hin | Hin].
    - rewrite Forall_forall in Hp. apply list_elem_of_In, Hp in Hin.
      destruct Hin as (H1 & H2 & _ & H4). auto.
    - rewrite Forall_forall in Hd. apply list_elem_of_In, Hd in Hin. subst e0.
      repeat split; discriminate. }
  destruct Hfacts as (H1 & H2 & H3).
  destruct e0 as [ | c r]; [congruence | ].
  exists c, r. split; [reflexivity | split; [ | exact H2]].
  apply no_slash_cons in H3. apply H3.
Qed.

Lemma join_kept (rooted : bool) (e0 : string) (K : list string) :
  kept_ok rooted (rev (e0 :: K)) ->
  exists c t, join_slash (e0 :: K) = String c t /\ c <> "/"%char
              /\ join_slash (e0 :: K) <> ".".
Proof.
  intros Hk. destruct (kept_head _ _ _ Hk) as (c & r & -> & Hc & Hdot).
  destruct (join_head (String c r) K) as (t & -> & Hnil & Hcons).
  rewrite str_app_cons. exists c, (r +:+ t). split; [reflexivity | split; [exact Hc | ]].
  intros [= -> E]. apply app_empty_inv in E as [-> ->].
  destruct K as [ | e1 K]; [congruence | ].
  destruct (Hcons ltac:(discriminate)) as [t' Ht']. discriminate.
Qed.

Lemma path_Clean_render (s : string) :
  path_Clean s = render (is_rooted s) (rev (fold_left (clean_step (is_rooted s)) (components s) [])).
Proof. reflexivity. Qed.

Lemma kept_of (s : string) :
  kept_ok (is_rooted s) (fold_left (clean_step (is_rooted s)) (components s) []).
Proof. apply fold_clean_ok; [apply components_no_slash | apply kept_ok_nil]. Qed.

Lemma Clean_of_render (rooted : bool) (K : list string) :
  kept_ok rooted (rev K) -> path_Clean (render rooted K) = render rooted K.
Proof.
  intros Hk. pose proof (kept_ok_no_slash _ _ Hk) as Hns.
  assert (HnsK : Forall no_slash K).
  { rewrite Forall_forall in Hns |- *. intros e He. apply Hns.
    apply list_elem_of_In, in_rev. rewrite rev_involutive. apply list_elem_of_In. exact He. }
  destruct rooted; unfold render.
  - rewrite path_Clean_render. rewrite str_app_cons, str_app_nil.
    cbn [is_rooted Ascii.eqb Bool.eqb andb]. rewrite components_slash.
    destruct K as [ | e0 K]; [reflexivity | ].
    assert (HL : e0 :: K <> []) by discriminate.
    revert Hk HnsK HL. generalize (e0 :: K). intros L Hk HnsK HL.
    rewrite components_join by assumption.
    cbn [fold_left]. change (clean_step true [] "") with (@nil string).
    rewrite <- (rev_involutive L) at 1.
    rewrite fold_clean_replay by exact Hk. rewrite rev_involutive. reflexivity.
  - destruct K as [ | e0 K]; [reflexivity | ].
    destruct (join_kept _ _ _ Hk) as (c & t & E & Hc & _).
    rewrite path_Clean_render.
    assert (Hroot : is_rooted (join_slash (e0 :: K)) = false).
    { rewrite E. cbn [is_rooted]. apply Ascii.eqb_neq. exact Hc. }
    rewrite Hroot, components_join by (discriminate || exact HnsK).
    rewrite <- (rev_involutive (e0 :: K)) at 1.
    rewrite fold_clean_replay by exact Hk. rewrite rev_involutive. reflexivity.
Qed.

(** [path.Clean] is idempotent. *)
Lemma path_Clean_idempotent (s : string) : path_Clean (path_Clean s) = path_Clean s.
Proof.
  rewrite (path_Clean_render s). apply Clean_of_render.
  rewrite rev_involutive. apply kept_of.
Qed.

Lemma path_Clean_nonempty (s : string) : path_Clean s <> "".
Proof.
  rewrite path_Clean_render. unfold render.
  destruct (is_rooted s) eqn:Hr; [rewrite str_app_cons; discriminate | ].
  pose proof (kept_of s) as Hk. rewrite Hr in Hk.
  rewrite <- (rev_involutive (fold_left _ _ _)) in Hk.
  destruct (rev (fold_left (clean_step false) (components s) [])) as [ | e0 K];
    [discriminate | ].
  destruct (join_kept _ _ _ Hk) as (c & t & E & _). rewrite E. discriminate.
Qed.

(** A plain element after a path: [path.Clean] puts it inside the
    directory the path cleans to. *)
Lemma path_Clean_snoc (s e : string) :
  s <> "" -> plain e -> path_Clean (s +:+ "/" +:+ e) = inside (path_Clean s) e.
Proof.
  intros Hs He.
  assert (Hroot : is_rooted (s +:+ "/" +:+ e) = is_rooted s).
  { destruct s; [congruence | reflexivity]. }
  rewrite (path_Clean_render (s +:+ "/" +:+ e)), Hroot.
  rewrite components_snoc by apply He.
  rewrite fold_left_app. cbn [fold_left]. rewrite clean_step_plain by exact He.
  cbn [rev]. rewrite (path_Clean_render s).
  pose proof (kept_of s) as Hk.
  rewrite <- (rev_involutive (fold_left _ _ _)) in Hk.
  destruct (rev (fold_left (clean_step (is_rooted s)) (components s) [])) as [ | e0 K].
  - destruct (is_rooted s); reflexivity.
  - destruct (join_kept _ _ _ Hk) as (c & t & E & Hc & Hdot).
    unfold render, inside. destruct (is_rooted s).
    + rewrite join_slash_snoc by discriminate.
      rewrite E, !str_app_cons, !str_app_nil. cbn [String.eqb Ascii.eqb Bool.eqb andb].
      reflexivity.
    + assert (H1 : String.eqb (join_slash (e0 :: K)) "/" = false).
      { apply String.eqb_neq. rewrite E. intros [= -> _]. congruence. }
      assert (H2 : String.eqb (join_slash (e0 :: K)) "." = false).
      { apply String.eqb_neq. exact Hdot. }
      rewrite H1, H2. rewrite <- (join_slash_snoc (e0 :: K) e) by discriminate.
      reflexivity.
Qed.

Lemma path_Clean_plain (e : string) : plain e -> path_Clean e = e.
Proof.
  intros He. pose proof He as (H1 & _ & _ & H4). rewrite path_Clean_render.
  assert (Hr : is_rooted e = false).
  { destruct e as [ | c r]; [congruence | ].
    destruct (no_slash_cons _ _ H4) as [Hc _]. apply Ascii.eqb_neq. exact Hc. }
  rewrite Hr, H4. cbn [fold_left]. rewrite clean_step_plain by exact He.
  reflexivity.
Qed.

(** [path.Join] on a root and three plain elements: the elements, one
    inside the other, under the root in clean form. *)
Lemma path_Join_tier (root a b c : string) :
  plain a -> plain b -> plain c ->
  path_Join [root; a; b; c] = inside (inside (inside (path_Clean root) a) b) c.
Proof.
  intros Ha Hb Hc.
  assert (Hchain : forall s, s <> "" ->
            path_Clean (s +:+ "/" +:+ a +:+ "/" +:+ b +:+ "/" +:+ c)
            = inside (inside (inside (path_Clean s) a) b) c).
  { intros s Hs.
    assert (Hassoc : s +:+ "/" +:+ a +:+ "/" +:+ b +:+ "/" +:+ c
                     = ((s +:+ "/" +:+ a) +:+ "/" +:+ b) +:+ "/" +:+ c)
      by (rewrite !str_app_assoc; reflexivity).
    assert (N1 : s +:+ "/" +:+ a <> "") by (destruct s; [congruence | discriminate]).
    assert (N2 : (s +:+ "/" +:+ a) +:+ "/" +:+ b <> "")
      by (destruct s; [congruence | discriminate]).
    rewrite Hassoc.
    rewrite (path_Clean_snoc _ c N2 Hc), (path_Clean_snoc _ b N1 Hb),
            (path_Clean_snoc _ a Hs Ha).
    reflexivity. }
  cbn [path_Join]. destruct (String.eqb root "") eqn:Er.
  - apply String.eqb_eq in Er. subst root.
    assert (Na : a <> "") by apply Ha. apply String.eqb_neq in Na. rewrite Na.
    change (join_slash [a; b; c]) with (a +:+ "/" +:+ b +:+ "/" +:+ c).
    assert (Na' : a <> "") by apply Ha.
    assert (N1 : a +:+ "/" +:+ b <> "") by (destruct a; [congruence | discriminate]).
    assert (Hassoc : a +:+ "/" +:+ b +:+ "/" +:+ c = (a +:+ "/" +:+ b) +:+ "/" +:+ c)
      by (rewrite !str_app_assoc; reflexivity).
    rewrite Hassoc.
    rewrite (path_Clean_snoc _ c N1 Hc), (path_Clean_snoc _ b Na' Hb).
    rewrite (path_Clean_plain a Ha). reflexivity.
  - apply String.eqb_neq in Er.
    change (join_slash [root; a; b; c])
      with (root +:+ "/" +:+ a +:+ "/" +:+ b +:+ "/" +:+ c).
    apply Hchain, Er.
Qed.

End Clean.

Lemma path_Join_cleaned (root a b c : string) :
  plain a -> exists Y, path_Join [root; a; b; c] = path_Clean Y.
Proof.
  intros (Ha & _). cbn [path_Join].
  destruct (String.eqb root ""); [ | eexists; reflexivity].
  apply String.eqb_neq in Ha. rewrite Ha. eexists; reflexivity.
Qed.

Lemma path_Join_file (Y m : string) :
  plain m -> path_Join [path_Clean Y; m] = inside (path_Clean Y) m.
Proof.
  intros Hm. cbn [path_Join].
  pose proof (path_Clean_nonempty Y) as Hne. apply String.eqb_neq in Hne. rewrite Hne.
  change (join_slash [path_Clean Y; m]) with (path_Clean Y +:+ "/" +:+ m).
  rewrite path_Clean_snoc by (apply String.eqb_neq in Hne; assumption).
  rewrite path_Clean_idempotent. reflexivity.
Qed.

(** Under a root in clean form other than [/], the paths are the root
    and the elements with slashes between them. *)
Lemma inside_clean_root (root e : string) :
  clean_root root -> plain e ->
  inside root e = root +:+ "/" +:+ e /\ clean_root (root +:+ "/" +:+ e).
Proof.
  intros Hroot He. split; [ | apply clean_root_snoc; assumption].
  destruct Hroot as (Hr & _ & Hne). unfold inside.
  apply String.eqb_neq in Hne. rewrite Hne.
  destruct root as [ | c r]; [discriminate | ].
  cbn [is_rooted] in Hr. apply Ascii.eqb_eq in Hr. subst c. reflexivity.
Qed.

(** ** Manifest resolution (C5) *)

Section Resolution.
Context {J : Json}.

Lemma manifestLoad_eq (path : string) (w : world) :
  manifestLoad path w
  = (emit (FsOpen path) w,
     match manifest_at w path with
     | inr m => Ok m
     | inl e => Err e
     end).
Proof.
  unfold manifestLoad, manifest_at. unfold bind at 1. rewrite os_Open_eq.
  cbn [files emit].
  destruct (files w !! path) as [[content | | content] | ]; try reflexivity.
  unfold bind, lift. rewrite ioutil_ReadAll_file.
  destruct (json_Unmarshal content); reflexivity.
Qed.

Lemma validated_plain (p : ManifestParameters) :
  Validate p = None -> plain (Operator p) /\ plain (OS p) /\ plain (Arch p).
Proof.
  intros Hvalid. apply Validate_nil_iff in Hvalid as (Hop & Hos & Harch).
  split; [ | split]; apply alnum_plain.
  - destruct (MatchString pre (Operator p)) eqn:E; [reflexivity | ].
    exfalso. apply Hop, no_match_bad, E.
  - destruct (MatchString pre (OS p)) eqn:E; [reflexivity | ].
    exfalso. apply Hos, no_match_bad, E.
  - destruct (MatchString pre (Arch p)) eqn:E; [reflexivity | ].
    exfalso. apply Harch, no_match_bad, E.
Qed.

Lemma plain_default : plain "default".
Proof. repeat split; discriminate. Qed.

Lemma plain_manifest_json : plain "manifest.json".
Proof. repeat split; discriminate. Qed.

(** C5. For an identity that [Validate] accepts, [manifestRoot] looks
    at [manifest.json] in the operator's directory
    [root/operator/arch/os] first, and returns that directory and the
    manifest the file decodes to when it loads and parses; if not, it
    looks at [manifest.json] in [root/default/arch/os], and returns
    that directory and that file's manifest when it loads and parses;
    if not, it returns the error "unable to locate manifest".  The
    manifest returned is that of one file, as it is. *)
Theorem manifestRoot_resolution (ctx : context) (p : ManifestParameters) (w : world) :
  Validate p = None ->
  let primary := inside (operator_tier ctx p) "manifest.json" in
  let secondary := inside (default_tier ctx p) "manifest.json" in
  manifestRoot ctx p w
  = match manifest_at w primary with
    | inr m => (emit (FsOpen primary) w, Ok (operator_tier ctx p, m))
    | inl _ =>
        let w1 := emit (FsOpen secondary) (emit (FsOpen primary) w) in
        match manifest_at w secondary with
        | inr m => (w1, Ok (default_tier ctx p, m))
        | inl _ => (w1, Err (Errorf "unable to locate manifest"))
        end
    end.
Proof.
  intros Hvalid primary secondary.
  destruct (validated_plain p Hvalid) as (Pop & Pos & Parch).
  unfold manifestRoot.
  destruct (path_Join_cleaned (Manifest_Path ctx) _ (Arch p) (OS p) Pop) as [Y1 E1].
  destruct (path_Join_cleaned (Manifest_Path ctx) _ (Arch p) (OS p) plain_default)
    as [Y2 E2].
  rewrite E1, E2, !path_Join_file by apply plain_manifest_json.
  rewrite <- E1, <- E2.
  rewrite (path_Join_tier _ _ _ _ Pop Parch Pos).
  rewrite (path_Join_tier _ _ _ _ plain_default Parch Pos).
  fold (operator_tier ctx p). fold (default_tier ctx p).
  fold primary. fold secondary.
  rewrite !manifestLoad_eq.
  destruct (manifest_at w primary) as [e1 | m1]; [ | reflexivity].
  unfold manifest_at at 1. cbn [files emit]. fold (manifest_at w secondary).
  destruct (manifest_at w secondary) as [e2 | m2]; reflexivity.
Qed.

(** The two manifest paths under a manifest root in clean form. *)
Lemma manifest_paths_clean_root (ctx : context) (p : ManifestParameters) :
  Validate p = None ->
  clean_root (Manifest_Path ctx) ->
  inside (operator_tier ctx p) "manifest.json"
  = Manifest_Path ctx +:+ "/" +:+ Operator p +:+ "/" +:+ Arch p +:+ "/" +:+ OS p
      +:+ "/" +:+ "manifest.json"
  /\ inside (default_tier ctx p) "manifest.json"
     = Manifest_Path ctx +:+ "/" +:+ "default" +:+ "/" +:+ Arch p +:+ "/" +:+ OS p
         +:+ "/" +:+ "manifest.json".
Proof.
  intros Hvalid Hroot.
  destruct (validated_plain p Hvalid) as (Pop & Pos & Parch).
  assert (Hgen : forall who, plain who ->
            inside (inside (inside (inside (path_Clean (Manifest_Path ctx)) who)
                              (Arch p)) (OS p)) "manifest.json"
            = Manifest_Path ctx +:+ "/" +:+ who +:+ "/" +:+ Arch p +:+ "/" +:+ OS p
                +:+ "/" +:+ "manifest.json").
  { intros who Pwho.
    destruct Hroot as (Hr & Hc & Hne). rewrite Hc.
    destruct (inside_clean_root _ who (conj Hr (conj Hc Hne)) Pwho) as [-> C1].
    destruct (inside_clean_root _ (Arch p) C1 Parch) as [-> C2].
    destruct (inside_clean_root _ (OS p) C2 Pos) as [-> C3].
    destruct (inside_clean_root _ "manifest.json" C3 plain_manifest_json) as [-> _].
    rewrite !str_app_assoc. reflexivity. }
  split; [apply (Hgen _ Pop) | apply (Hgen _ plain_default)].
Qed.

End Resolution.

Lemma manifestRoot_resolution_witness :
  @manifestRoot json_example api_ctx acme_request api_world
  = (emit (FsOpen "/var/cache/mig/default/amd64/linux/manifest.json")
       (emit (FsOpen "/var/cache/mig/acme/amd64/linux/manifest.json") api_world),
     Ok ("/var/cache/mig/default/amd64/linux", manifest_default)).
Proof.
  apply (@manifestRoot_resolution json_example api_ctx acme_request api_world).
  reflexivity.
Defined.

(* ===================================================================== *)
(** * Further properties of the code *)
(* ===================================================================== *)

(** ** The three outcomes of [Validate] *)

Lemma eqb_empty_false (s : string) : String.eqb s "" = false <-> s <> "".
Proof. apply String.eqb_neq. Qed.

(** [Validate] tells an empty parameter from a parameter with a
    character outside [[A-Za-z0-9]], and returns nil on nothing else
    than three non-empty strings of letters and digits. *)
Theorem Validate_outcomes (m : ManifestParameters) :
  (Validate m = Some (Errorf "invalid manifest parameters")
   <-> Operator m = "" \/ OS m = "" \/ Arch m = "")
  /\ (Validate m = Some (Errorf "bad characters in manifest parameters")
      <-> Operator m <> "" /\ OS m <> "" /\ Arch m <> ""
          /\ (bad_parameter (Operator m) \/ bad_parameter (OS m) \/ bad_parameter (Arch m)))
  /\ (Validate m = None
      <-> ~ bad_parameter (Operator m) /\ ~ bad_parameter (OS m) /\ ~ bad_parameter (Arch m)).
Proof.
  split; [ | split; [ | apply Validate_nil_iff]].
  - unfold Validate.
    destruct (String.eqb_spec (Operator m) "") as [E1 | E1];
      [split; [auto | reflexivity] | ].
    destruct (String.eqb_spec (OS m) "") as [E2 | E2];
      [split; [auto | reflexivity] | ].
    destruct (String.eqb_spec (Arch m) "") as [E3 | E3];
      [split; [auto | reflexivity] | ].
    cbn [orb]. split.
    + destruct (_ || _ || _)%bool; discriminate.
    + intros [H | [H | H]]; congruence.
  - unfold Validate.
    destruct (String.eqb_spec (Operator m) "") as [E1 | E1];
      [split; [discriminate | tauto] | ].
    destruct (String.eqb_spec (OS m) "") as [E2 | E2];
      [split; [discriminate | tauto] | ].
    destruct (String.eqb_spec (Arch m) "") as [E3 | E3];
      [split; [discriminate | tauto] | ].
    cbn [orb]. split.
    + intros Hv. repeat split; auto.
      destruct (MatchString pre (Operator m)) eqn:M1; [ | left; apply no_match_bad, M1].
      destruct (MatchString pre (OS m)) eqn:M2; [ | right; left; apply no_match_bad, M2].
      destruct (MatchString pre (Arch m)) eqn:M3; [ | right; right; apply no_match_bad, M3].
      discriminate Hv.
    + intros (_ & _ & _ & [Hbad | [Hbad | Hbad]]);
        rewrite (bad_parameter_no_match _ Hbad); cbn [negb orb];
        rewrite ?orb_true_r; reflexivity.
Qed.

(** ** Computations that leave the file system alone *)

Lemma untouched_refl (w : world) : untouched w w.
Proof. repeat split. Qed.

Lemma untouched_trans (w1 w2 w3 : world) :
  untouched w1 w2 -> untouched w2 w3 -> untouched w1 w3.
Proof. intros (A1 & B1 & C1) (A2 & B2 & C2). repeat split; congruence. Qed.

Lemma untouched_emit (e : event) (w : world) :
  is_write_event e = false -> untouched w (emit e w).
Proof.
  intros He. repeat split. cbn [emit trace]. rewrite List.filter_app.
  cbn [List.filter]. rewrite He. apply app_nil_r.
Qed.

Lemma reads_only_bind {A B} (c : M A) (k : A -> M B) :
  reads_only c -> (forall a, reads_only (k a)) -> reads_only (bind c k).
Proof.
  intros Hc Hk w. unfold bind. specialize (Hc w).
  destruct (c w) as [w1 [a | e | msg]]; cbn [fst] in *; try exact Hc.
  eapply untouched_trans; [exact Hc | apply Hk].
Qed.

Lemma reads_only_lift {A} (r : result A) : reads_only (lift r).
Proof. intros w. apply untouched_refl. Qed.

Lemma reads_only_log (e : event) : is_write_event e = false -> reads_only (log e).
Proof. intros He w. apply untouched_emit, He. Qed.

Lemma reads_only_os_Open (path : string) : reads_only (os_Open path).
Proof. intros w. rewrite os_Open_eq. apply untouched_emit. reflexivity. Qed.

Section ApiReadsOnly.
Context {J : Json} {G : Gzip}.

Lemma reads_only_manifestLoad (path : string) : reads_only (manifestLoad path).
Proof.
  intros w. rewrite manifestLoad_eq. apply untouched_emit. reflexivity.
Qed.

Lemma reads_only_manifestRoot (ctx : context) (p : ManifestParameters) :
  reads_only (manifestRoot ctx p).
Proof.
  intros w. unfold manifestRoot.
  set (primary := path_Join [path_Join _; _]).
  set (secondary := path_Join [path_Join _; _]).
  pose proof (reads_only_manifestLoad primary w) as H1.
  destruct (manifestLoad primary w) as [w1 [m | e | msg]]; cbn [fst] in *; try exact H1.
  pose proof (reads_only_manifestLoad secondary w1) as H2.
  destruct (manifestLoad secondary w1) as [w2 [m | e' | msg]]; cbn [fst] in *;
    eapply untouched_trans; eassumption.
Qed.

(** [loadContent] opens the path it is given, once, and that is all it
    does to the world. *)
Lemma loadContent_world (path sig : string) (w : world) :
  fst (loadContent path sig w) = emit (FsOpen path) w.
Proof.
  unfold loadContent. rewrite os_Open_eq.
  destruct (files w !! path) as [[content | | content] | ]; try reflexivity.
  - destruct (read_loop _ _ _ _ _) as [[h z] | e | msg]; try reflexivity.
    destruct (negb _); reflexivity.
Qed.

End ApiReadsOnly.

(** ** The content loader: what it returns and what it leaves *)

Section LoadContentMore.
Context {G : Gzip}.

(** A payload that [loadContent] returns is the compressed content of
    a regular file at the path, and that content has the digest that
    was asked for. *)
Theorem loadContent_payload (path sig : string) (w w' : world) (buf : list byte) :
  gzip_contract G ->
  loadContent path sig w = (w', Ok buf) ->
  exists content,
    files w !! path = Some (File content)
    /\ sha256_hex content = sig
    /\ gunzip buf = Ok content.
Proof.
  intros HG Hrun.
  destruct (loadContent_Ok_inv path sig w w' buf Hrun) as (content & Hfile & Hsig).
  exists content. split; [exact Hfile | split; [exact Hsig | ]].
  destruct (loadContent_file path sig w content Hfile) as (pieces & Hcat & Heq).
  rewrite Heq in Hrun. apply String.eqb_eq in Hsig. rewrite Hsig in Hrun.
  cbn [negb] in Hrun. injection Hrun as _ <-.
  rewrite (HG pieces), Hcat. reflexivity.
Qed.

(** Without a regular file at the path there is no payload: a path
    that cannot be opened gives "unable to load manifest object",
    whatever the reason, and a directory gives the error of the
    read. *)
Theorem loadContent_without_file (path sig : string) (w : world) :
  (forall content, files w !! path <> Some (File content)) ->
  loadContent path sig w
  = (emit (FsOpen path) w,
     Err (match files w !! path with
          | Some Dir => PathError "read" path EISDIR
          | _ => Errorf "unable to load manifest object"
          end)).
Proof.
  intros Hno. unfold loadContent. rewrite os_Open_eq.
  destruct (files w !! path) as [[content | | content] | ]; try reflexivity.
  exfalso. exact (Hno content eq_refl).
Qed.

End LoadContentMore.

Lemma loadContent_payload_witness :
  exists content,
    files api_world !! "/var/cache/mig/default/amd64/linux/files/agent"
    = Some (File content)
    /\ sha256_hex content = agent_v2_digest
    /\ @gunzip stored_gzip
         (StoredGzip.compress agent_v2) = Ok content.
Proof.
  apply (@loadContent_payload stored_gzip
           "/var/cache/mig/default/amd64/linux/files/agent" agent_v2_digest
           api_world (emit (FsOpen "/var/cache/mig/default/amd64/linux/files/agent") api_world)
           (StoredGzip.compress agent_v2) stored_gzip_contract).
  vm_compute. reflexivity.
Defined.

Lemma loadContent_without_file_witness :
  @loadContent stored_gzip "/var/cache/mig/default/amd64/linux/files/scribe" "abc123"
    api_world
  = (emit (FsOpen "/var/cache/mig/default/amd64/linux/files/scribe") api_world,
     Err (Errorf "unable to load manifest object")).
Proof.
  apply (@loadContent_without_file stored_gzip
           "/var/cache/mig/default/amd64/linux/files/scribe" "abc123" api_world).
  intros content. vm_compute. discriminate.
Defined.

(** ** The manifest endpoint *)

Section Endpoints.
Context {J : Json}.

(** [manifestRoot] by what the two manifest files hold. *)
Lemma manifestRoot_tiers (ctx : context) (p : ManifestParameters) (w : world) :
  Validate p = None ->
  manifestRoot ctx p w
  = match manifest_at w (inside (operator_tier ctx p) "manifest.json") with
    | inr m =>
        (emit (FsOpen (inside (operator_tier ctx p) "manifest.json")) w,
         Ok (operator_tier ctx p, m))
    | inl _ =>
        match manifest_at w (inside (default_tier ctx p) "manifest.json") with
        | inr m =>
            (emit (FsOpen (inside (default_tier ctx p) "manifest.json"))
               (emit (FsOpen (inside (operator_tier ctx p) "manifest.json")) w),
             Ok (default_tier ctx p, m))
        | inl _ =>
            (emit (FsOpen (inside (default_tier ctx p) "manifest.json"))
               (emit (FsOpen (inside (operator_tier ctx p) "manifest.json")) w),
             Err (Errorf "unable to locate manifest"))
        end
    end.
Proof.
  intros Hvalid.
  destruct (validated_plain p Hvalid) as (Pop & Pos & Parch).
  unfold manifestRoot.
  destruct (path_Join_cleaned (Manifest_Path ctx) _ (Arch p) (OS p) Pop) as [Y1 E1].
  destruct (path_Join_cleaned (Manifest_Path ctx) _ (Arch p) (OS p) plain_default)
    as [Y2 E2].
  rewrite E1, E2, !path_Join_file by apply plain_manifest_json.
  rewrite <- E1, <- E2.
  rewrite (path_Join_tier _ _ _ _ Pop Parch Pos).
  rewrite (path_Join_tier _ _ _ _ plain_default Parch Pos).
  fold (operator_tier ctx p). fold (default_tier ctx p).
  rewrite !manifestLoad_eq.
  destruct (manifest_at w (inside (operator_tier ctx p) "manifest.json"))
    as [e1 | m1]; [ | reflexivity].
  unfold manifest_at at 1. cbn [files emit].
  fold (manifest_at w (inside (default_tier ctx p) "manifest.json")).
  destruct (manifest_at w (inside (default_tier ctx p) "manifest.json"))
    as [e2 | m2]; reflexivity.
Qed.

(** For an identity that [Validate] accepts, [getAgentManifest] answers
    200 with the manifest of the operator's tier, or else of the
    default tier, as the file holds it; when neither file loads and
    parses it answers 500 with "unable to locate manifest". *)
Theorem getAgentManifest_answers (ctx : context) (p : ManifestParameters) (w : world) :
  Validate p = None ->
  snd (getAgentManifest ctx (Form (Ok p)) w)
  = match manifest_at w (inside (operator_tier ctx p) "manifest.json") with
    | inr m => (200, ResManifest m)
    | inl _ =>
        match manifest_at w (inside (default_tier ctx p) "manifest.json") with
        | inr m => (200, ResManifest m)
        | inl _ => (500, ResError "unable to locate manifest")
        end
    end.
Proof.
  intros Hvalid. unfold getAgentManifest, getAgentManifest_body.
  rewrite Hvalid. unfold bind at 1, log at 1.
  rewrite (manifestRoot_tiers ctx p _ Hvalid).
  change (manifest_at (emit (Log "Received manifest request") w))
    with (manifest_at w).
  destruct (manifest_at w (inside (operator_tier ctx p) "manifest.json"))
    as [e1 | m1]; [ | reflexivity].
  destruct (manifest_at w (inside (default_tier ctx p) "manifest.json"))
    as [e2 | m2]; reflexivity.
Qed.

(** Whatever the request, [getAgentManifest] creates, writes and
    renames nothing, and its answer is a 200 or a 500. *)
Theorem getAgentManifest_reads_only (ctx : context) (req : request) (w : world) :
  untouched w (fst (getAgentManifest ctx req w))
  /\ (fst (snd (getAgentManifest ctx req w)) = 200
      \/ fst (snd (getAgentManifest ctx req w)) = 500).
Proof.
  unfold getAgentManifest.
  assert (Hbody : untouched w (fst (getAgentManifest_body ctx req w))).
  { unfold getAgentManifest_body.
    destruct req as [e | [p | e | msg]]; try apply untouched_refl.
    destruct (Validate p); [apply untouched_refl | ].
    unfold bind, log.
    pose proof (reads_only_manifestRoot ctx p (emit (Log "Received manifest request") w))
      as Hroot.
    destruct (manifestRoot ctx p _) as [w1 [[root m] | e | msg]]; cbn [fst] in *;
      (apply (untouched_trans _ (emit (Log "Received manifest request") w));
       [apply untouched_emit; reflexivity | exact Hroot]). }
  assert (Hlog : forall (line : string) (w0 w1 : world),
            untouched w0 w1 -> untouched w0 (emit (Log line) w1)).
  { intros line w0 w1 H. eapply untouched_trans; [exact H | ].
    apply untouched_emit. reflexivity. }
  destruct (getAgentManifest_body ctx req w) as [w1 [m | e | msg]]; cbn [fst snd] in *;
    (split; [ | auto]); repeat apply Hlog; exact Hbody.
Qed.

End Endpoints.

Lemma getAgentManifest_answers_witness :
  snd (@getAgentManifest json_example api_ctx (Form (Ok acme_request)) api_world)
  = (200, ResManifest manifest_default).
Proof.
  apply (@getAgentManifest_answers json_example api_ctx acme_request api_world).
  reflexivity.
Defined.

(** ** The fetch endpoint *)

Section FetchEndpoint.
Context {J : Json} {G : Gzip} {V : FetchValidation}.

(** What [manifestRoot] returns depends on the files only. *)
Lemma manifestRoot_result_files (ctx : context) (p : ManifestParameters) (w1 w2 : world) :
  files w1 = files w2 ->
  snd (manifestRoot ctx p w1) = snd (manifestRoot ctx p w2).
Proof.
  intros Hf. unfold manifestRoot. rewrite !manifestLoad_eq.
  assert (Hat : forall path, manifest_at w1 path = manifest_at w2 path)
    by (intros path; unfold manifest_at; rewrite Hf; reflexivity).
  rewrite Hat.
  destruct (manifest_at w2 _) as [e1 | m1]; [ | reflexivity].
  cbv beta iota. unfold manifest_at. cbn [files emit]. rewrite Hf.
  destruct (files w2 !! _) as [[content | | content] | ]; try reflexivity.
  destruct (json_Unmarshal content); reflexivity.
Qed.

(** A 200 answer of [getManifestFile] carries the content of the file
    [files/<object>] under the directory [manifestRoot] resolved,
    compressed; the object is listed in the manifest resolved, and the
    content has the digest the manifest gives for it. *)
Theorem getManifestFile_serves_manifest_content (ctx : context) (p : ManifestParameters)
    (w w' : world) (data : list byte) :
  gzip_contract G ->
  getManifestFile ctx (Form (Ok p)) w = (w', (200, FetchContent data)) ->
  exists root manifest mentry content,
    snd (manifestRoot ctx p w) = Ok (root, manifest)
    /\ In mentry (Entries manifest)
    /\ me_Name mentry = Object p
    /\ files w !! path_Join [root; "files"; Object p] = Some (File content)
    /\ sha256_hex content = me_SHA256 mentry
    /\ gunzip data = Ok content.
Proof.
  intros HG Hrun. unfold getManifestFile, getManifestFile_body in Hrun.
  unfold bind at 1, log at 1 in Hrun.
  destruct (ValidateFetch p); [discriminate Hrun | ].
  set (w0 := emit (Log "Received manifest file request") w) in *.
  pose proof (reads_only_manifestRoot ctx p w0) as (Hfiles & _ & _).
  pose proof (manifestRoot_result_files ctx p w0 w eq_refl) as Hres.
  destruct (manifestRoot ctx p w0) as [w1 [[root manifest] | e | msg]];
    try discriminate Hrun.
  cbn [fst snd] in Hfiles, Hres.
  destruct (find _ (Entries manifest)) as [mentry | ] eqn:Hfind;
    [ | discriminate Hrun].
  apply find_some in Hfind as [Hin Hname]. apply String.eqb_eq in Hname.
  destruct (loadContent _ _ w1) as [w2 [buf | e | msg]] eqn:Hload;
    try discriminate Hrun.
  injection Hrun as _ <-.
  destruct (loadContent_payload _ _ _ _ _ HG Hload) as (content & Hfile & Hsig & Hgz).
  exists root, manifest, mentry, content.
  rewrite Hname, Hfiles in Hfile. cbn [files emit] in Hfile.
  split; [symmetry; exact Hres | ]. repeat split; assumption.
Qed.

(** An object that the manifest resolved does not list is answered by
    500 "requested object does not exist in manifest", and no file is
    looked at beyond those [manifestRoot] opened. *)
Theorem getManifestFile_unknown_object (ctx : context) (p : ManifestParameters)
    (w : world) (root : string) (manifest : ManifestResponse) :
  ValidateFetch p = None ->
  snd (manifestRoot ctx p w) = Ok (root, manifest) ->
  find (fun e => String.eqb (me_Name e) (Object p)) (Entries manifest) = None ->
  snd (getManifestFile ctx (Form (Ok p)) w)
  = (500, FetchError "requested object does not exist in manifest")
  /\ List.filter is_fs_event (trace (fst (getManifestFile ctx (Form (Ok p)) w)))
     = List.filter is_fs_event
         (trace (fst (manifestRoot ctx p (emit (Log "Received manifest file request") w)))).
Proof.
  intros Hv Hroot Hfind.
  set (w0 := emit (Log "Received manifest file request") w).
  assert (Hrun : getManifestFile ctx (Form (Ok p)) w
                 = (emit (Log "leaving getManifestFile()")
                      (emit (Log "requested object does not exist in manifest")
                         (fst (manifestRoot ctx p w0))),
                    (500, FetchError "requested object does not exist in manifest"))).
  { unfold getManifestFile, getManifestFile_body. unfold bind, log. rewrite Hv.
    fold w0.
    rewrite <- (manifestRoot_result_files ctx p w0 w eq_refl) in Hroot.
    destruct (manifestRoot ctx p w0) as [w1 [[root' manifest'] | e | msg]];
      try discriminate Hroot.
    cbn [snd] in Hroot. injection Hroot as -> ->. rewrite Hfind. reflexivity. }
  rewrite Hrun. cbn [fst snd emit trace]. split; [reflexivity | ].
  rewrite !List.filter_app. cbn [List.filter is_fs_event]. rewrite !app_nil_r. reflexivity.
Qed.

(** Whatever the request, [getManifestFile] creates, writes and renames
    nothing. *)
Theorem getManifestFile_reads_only (ctx : context) (req : request) (w : world) :
  untouched w (fst (getManifestFile ctx req w)).
Proof.
  assert (Hlog : forall (line : string) (w0 w1 : world),
            untouched w0 w1 -> untouched w0 (emit (Log line) w1)).
  { intros line w0 w1 H. eapply untouched_trans; [exact H | ].
    apply untouched_emit. reflexivity. }
  unfold getManifestFile.
  assert (Hbody : untouched w (fst (getManifestFile_body ctx req w))).
  { unfold getManifestFile_body.
    destruct req as [e | params]; [apply untouched_refl | ].
    unfold bind at 1, log at 1.
    destruct params as [p | e | msg]; try (apply Hlog, untouched_refl).
    destruct (ValidateFetch p); [apply Hlog, untouched_refl | ].
    pose proof (reads_only_manifestRoot ctx p (emit (Log "Received manifest file request") w))
      as Hroot.
    destruct (manifestRoot ctx p _) as [w1 [[root m] | e | msg]]; cbn [fst] in *;
      try (eapply untouched_trans; [apply Hlog, untouched_refl | exact Hroot]).
    assert (H1 : untouched w w1)
      by (eapply untouched_trans; [apply Hlog, untouched_refl | exact Hroot]).
    destruct (find _ _) as [mentry | ]; [ | exact H1].
    pose proof (loadContent_world (path_Join [root; "files"; me_Name mentry])
                  (me_SHA256 mentry) w1) as Hw.
    destruct (loadContent _ _ w1) as [w2 [buf | e | msg]]; cbn [fst] in *; subst w2;
      (eapply untouched_trans; [exact H1 | apply untouched_emit; reflexivity]). }
  destruct (getManifestFile_body ctx req w) as [w1 [m | e | msg]]; cbn [fst] in *;
    repeat apply Hlog; exact Hbody.
Qed.

End FetchEndpoint.

Lemma getManifestFile_serves_manifest_content_witness :
  exists root manifest mentry content,
    snd (@manifestRoot json_example api_ctx agent_request api_world) = Ok (root, manifest)
    /\ In mentry (Entries manifest)
    /\ me_Name mentry = "agent"
    /\ files api_world !! path_Join [root; "files"; "agent"] = Some (File content)
    /\ sha256_hex content = me_SHA256 mentry
    /\ @gunzip stored_gzip (StoredGzip.compress agent_v2) = Ok content.
Proof.
  apply (@getManifestFile_serves_manifest_content json_example stored_gzip
           fetch_as_manifest api_ctx agent_request api_world
           (fst (@getManifestFile json_example stored_gzip fetch_as_manifest
                   api_ctx (Form (Ok agent_request)) api_world))
           (StoredGzip.compress agent_v2) stored_gzip_contract).
  vm_compute. reflexivity.
Defined.

Lemma getManifestFile_unknown_object_witness :
  snd (@getManifestFile json_example stored_gzip fetch_as_manifest
         api_ctx (Form (Ok missing_request)) api_world)
  = (500, FetchError "requested object does not exist in manifest")
  /\ List.filter is_fs_event
       (trace (fst (@getManifestFile json_example stored_gzip fetch_as_manifest
                      api_ctx (Form (Ok missing_request)) api_world)))
     = List.filter is_fs_event
         (trace (fst (@manifestRoot json_example api_ctx missing_request
                        (emit (Log "Received manifest file request") api_world)))).
Proof.
  apply (@getManifestFile_unknown_object json_example stored_gzip fetch_as_manifest
           api_ctx missing_request api_world
           "/var/cache/mig/default/amd64/linux" manifest_default).
  - reflexivity.
  - vm_compute. reflexivity.
  - reflexivity.
Defined.

(** ** The earlier resolver *)

Section EarlierResolver.
Context {J : Json}.

Lemma fold_slash_prefix (es : list string) (a b : string) :
  fold_left (fun acc e => acc +:+ "/" +:+ e) es (a +:+ b)
  = a +:+ fold_left (fun acc e => acc +:+ "/" +:+ e) es b.
Proof.
  revert b. induction es as [ | e es IH]; intros b; [reflexivity | ].
  cbn [fold_left]. rewrite str_app_assoc. apply IH.
Qed.

Lemma join_slash_fold (es : list string) (s : string) :
  join_slash (s :: es) = fold_left (fun acc e => acc +:+ "/" +:+ e) es s.
Proof.
  revert s. induction es as [ | e es IH]; intros s; [reflexivity | ].
  change (join_slash (s :: e :: es)) with (s +:+ "/" +:+ join_slash (e :: es)).
  rewrite IH. cbn [fold_left].
  rewrite (fold_slash_prefix es s ("/" +:+ e)), (fold_slash_prefix es "/" e).
  reflexivity.
Qed.

Lemma path_Clean_fold (es : list string) :
  Forall plain es ->
  forall s, s <> "" ->
    path_Clean (fold_left (fun acc e => acc +:+ "/" +:+ e) es s)
    = fold_left inside es (path_Clean s).
Proof.
  induction es as [ | e es IH]; intros Hes s Hs; [reflexivity | ].
  apply Forall_cons in Hes as [He Hes]. cbn [fold_left].
  rewrite IH by first [assumption | destruct s; [congruence | discriminate]].
  rewrite path_Clean_snoc by assumption. reflexivity.
Qed.

(** [path.Join] on a root and plain elements: the elements, each inside
    the one before, under the root in clean form. *)
Lemma path_Join_plain (root : string) (es : list string) :
  Forall plain es -> es <> [] ->
  path_Join (root :: es) = fold_left inside es (path_Clean root).
Proof.
  intros Hes Hne. cbn [path_Join]. destruct (String.eqb_spec root "") as [-> | Hroot].
  - destruct es as [ | e es]; [congruence | ].
    apply Forall_cons in Hes as [He Hes].
    cbn [path_Join]. assert (Hn : e <> "") by apply He.
    apply String.eqb_neq in Hn. rewrite Hn.
    rewrite join_slash_fold, path_Clean_fold, path_Clean_plain
      by (assumption || apply He).
    reflexivity.
  - rewrite join_slash_fold, path_Clean_fold by assumption. reflexivity.
Qed.

(** For an identity that [Validate] accepts, [getManifestResponse]
    returns the manifest [manifestRoot] returns, or the same error. *)
Theorem getManifestResponse_agrees (ctx : context) (p : ManifestParameters) (w : world) :
  Validate p = None ->
  snd (getManifestResponse ctx p w)
  = match snd (manifestRoot ctx p w) with
    | Ok (_, m) => Ok m
    | Err e => Err e
    | Panic msg => Panic msg
    end.
Proof.
  intros Hvalid.
  destruct (validated_plain p Hvalid) as (Pop & Pos & Parch).
  rewrite (manifestRoot_tiers ctx p w Hvalid).
  unfold getManifestResponse.
  assert (H1 : Forall plain [Operator p; Arch p; OS p; "manifest.json"]).
  { constructor; [exact Pop | constructor; [exact Parch | constructor; [exact Pos | ]]].
    constructor; [exact plain_manifest_json | constructor]. }
  assert (H2 : Forall plain ["default"; Arch p; OS p; "manifest.json"]).
  { constructor; [exact plain_default | constructor; [exact Parch | constructor; [exact Pos | ]]].
    constructor; [exact plain_manifest_json | constructor]. }
  rewrite (path_Join_plain _ _ H1), (path_Join_plain _ _ H2) by discriminate.
  cbn [fold_left]. fold (operator_tier ctx p). fold (default_tier ctx p).
  unfold bind, log. rewrite manifestLoad_eq.
  set (w0 := emit _ (emit _ w)).
  change (manifest_at w0) with (manifest_at w).
  destruct (manifest_at w (inside (operator_tier ctx p) "manifest.json"))
    as [e1 | m1]; [ | reflexivity].
  rewrite manifestLoad_eq.
  change (manifest_at (emit (FsOpen (inside (operator_tier ctx p) "manifest.json")) w0))
    with (manifest_at w).
  destruct (manifest_at w (inside (default_tier ctx p) "manifest.json"))
    as [e2 | m2]; reflexivity.
Qed.

End EarlierResolver.

Lemma getManifestResponse_agrees_witness :
  snd (@getManifestResponse json_example api_ctx acme_request api_world)
  = Ok manifest_default.
Proof.
  apply (@getManifestResponse_agrees json_example api_ctx acme_request api_world).
  reflexivity.
Defined.

(** ** The snapshot: what it changes *)

Lemma alter_keeps_names (v : string) (i : nat) (es : list BundleDictionaryEntry) :
  List.map (fun e => (Name e, Path e)) (alter (with_SHA256 v) i es)
  = List.map (fun e => (Name e, Path e)) es.
Proof.
  revert i. induction es as [ | e es IH]; intros i; [reflexivity | ].
  destruct i as [ | i]; cbn; [reflexivity | ].
  f_equal. apply IH.
Qed.

Lemma same_entries_refl (w : world) : same_entries w w.
Proof. intros base. reflexivity. Qed.

Lemma same_entries_trans (w1 w2 w3 : world) :
  same_entries w1 w2 -> same_entries w2 w3 -> same_entries w1 w3.
Proof. intros H1 H2 base. rewrite H2. apply H1. Qed.

Lemma digests_only_refl (w : world) : digests_only w w.
Proof. split; [apply untouched_refl | split; [reflexivity | apply same_entries_refl]]. Qed.

Lemma digests_only_trans (w1 w2 w3 : world) :
  digests_only w1 w2 -> digests_only w2 w3 -> digests_only w1 w3.
Proof.
  intros (U1 & M1 & S1) (U2 & M2 & S2).
  split; [eapply untouched_trans; eassumption | ].
  split; [congruence | eapply same_entries_trans; eassumption].
Qed.

Lemma HashBundle_range_changes (s : slice) (todo : list nat) :
  forall w, digests_only w (fst (HashBundle_range s todo w)).
Proof.
  induction todo as [ | i todo IH]; intros w; [apply digests_only_refl | ].
  cbn [HashBundle_range]. unfold bind at 1. unfold index.
  destruct (elems s w !! i) as [e | ]; [ | apply digests_only_refl].
  rewrite os_Open_eq.
  assert (Hopen : digests_only w (emit (FsOpen (Path e)) w)).
  { split; [apply untouched_emit; reflexivity | ].
    split; [reflexivity | intros base; reflexivity]. }
  assert (Hnext : forall w1, digests_only w w1 ->
            digests_only w (fst (HashBundle_range s todo w1))).
  { intros w1 H1. eapply digests_only_trans; [exact H1 | apply IH]. }
  destruct (files w !! Path e) as [[content | | content] | ]; cbn [os_IsNotExist].
  - rewrite hash_stream_file. unfold bind at 1. unfold assign_SHA256 at 1.
    destruct s as [ | b]; [exact Hopen | ]. cbn [arrays emit].
    destruct (arrays w !! b) as [es | ] eqn:Harr; [ | exact Hopen].
    destruct (decide (i < length es)); [ | exact Hopen].
    apply Hnext. split; [ | split].
    + destruct Hopen as ((F & Fr & T) & _). repeat split; assumption.
    + reflexivity.
    + intros base. cbn [arrays set_arrays emit].
      destruct (decide (base = b)) as [-> | Hne].
      * rewrite lookup_insert_eq, Harr. cbn [default from_option id].
        apply alter_keeps_names.
      * rewrite lookup_insert_ne by congruence. reflexivity.
  - exact Hopen.
  - exact Hopen.
  - apply Hnext. exact Hopen.
Qed.

(** [HashBundle] changes digests and nothing else, whatever it
    returns: the file system is as it was, nothing was written, and
    every array holds the entries it held, by name and path. *)
Theorem HashBundle_changes_digests_only (b : slice) (w : world) :
  untouched w (fst (HashBundle b w))
  /\ apiManifest (fst (HashBundle b w)) = apiManifest w
  /\ same_entries w (fst (HashBundle b w)).
Proof. unfold HashBundle. apply HashBundle_range_changes. Qed.

Lemma hashed_idempotent (fs : gmap string node) (e : BundleDictionaryEntry) :
  hashed fs (hashed fs e) = hashed fs e.
Proof.
  unfold hashed at 2 3.
  destruct (fs !! Path e) as [[content | | content] | ] eqn:E;
    unfold hashed; cbn [Path with_SHA256]; rewrite E; reflexivity.
Qed.

Lemma hashed_readable (fs : gmap string node) (e : BundleDictionaryEntry) :
  readable fs e -> readable fs (hashed fs e).
Proof.
  unfold readable. destruct (hashed_spec fs e) as (_ & -> & _). trivial.
Qed.

(** On files that do not change, the snapshot is stable: a second
    [HashBundle] leaves the arrays as the first left them. *)
Theorem HashBundle_stable (base : nat) (w : world) (es : list BundleDictionaryEntry) :
  arrays w !! base = Some es ->
  Forall (readable (files w)) es ->
  exists w1 w2,
    HashBundle (slice_of base) w = (w1, Ok (slice_of base))
    /\ HashBundle (slice_of base) w1 = (w2, Ok (slice_of base))
    /\ arrays w2 = arrays w1.
Proof.
  intros Harr Hread.
  pose proof (HashBundle_readable base w es Harr Hread) as H1.
  set (w1 := hashed_world base w (List.map (hashed (files w)) es) es) in *.
  assert (Harr1 : arrays w1 !! base = Some (List.map (hashed (files w)) es))
    by apply lookup_insert_eq.
  assert (Hread1 : Forall (readable (files w1)) (List.map (hashed (files w)) es)).
  { cbn [w1 hashed_world files]. clear -Hread.
    induction es as [ | e es IH]; [constructor | ].
    apply Forall_cons in Hread as [He Hes].
    cbn [List.map]. constructor; [apply hashed_readable, He | apply IH, Hes]. }
  pose proof (HashBundle_readable base w1 _ Harr1 Hread1) as H2.
  exists w1. eexists. split; [exact H1 | split; [exact H2 | ]].
  cbn [hashed_world arrays w1 files]. rewrite insert_insert_eq. f_equal.
  rewrite List.map_map. apply List.map_ext. intros e. apply hashed_idempotent.
Qed.

Lemma HashBundle_stable_witness :
  exists w1 w2,
    HashBundle (slice_of 0) host_world = (w1, Ok (slice_of 0))
    /\ HashBundle (slice_of 0) w1 = (w2, Ok (slice_of 0))
    /\ arrays w2 = arrays w1.
Proof.
  apply (HashBundle_stable 0 host_world [entry_agent; entry_configuration]).
  - reflexivity.
  - constructor; [ | constructor; [ | constructor]].
    + right. exists agent_v1. reflexivity.
    + left. reflexivity.
Defined.

(** When the snapshot stops at an entry it cannot open or read,
    [HashBundle] returns the error and no slice, but the digests of
    the entries before that one are in the array it was given. *)
Theorem HashBundle_error_keeps_earlier_digests (base : nat) (w : world)
    (pre post : list BundleDictionaryEntry) (bad : BundleDictionaryEntry) :
  arrays w !! base = Some (pre ++ bad :: post) ->
  Forall (readable (files w)) pre ->
  unreadable (files w) bad ->
  snd (HashBundle (slice_of base) w) = Err (snapshot_error (files w) bad)
  /\ elems (slice_of base) (fst (HashBundle (slice_of base) w))
     = List.map (hashed (files w)) pre ++ bad :: post.
Proof.
  intros Harr Hread Hbad.
  rewrite (HashBundle_unreadable base w pre post bad Harr Hread Hbad).
  split; [reflexivity | ].
  cbn [fst elems emit arrays hashed_world]. rewrite lookup_insert_eq. reflexivity.
Qed.

Lemma HashBundle_error_keeps_earlier_digests_witness :
  snd (HashBundle (slice_of 0) broken_world)
  = Err (PathError "read" "/etc/mig/mig-agent.cfg" EISDIR)
  /\ elems (slice_of 0) (fst (HashBundle (slice_of 0) broken_world))
     = [have_agent_v1; entry_configuration].
Proof.
  apply (HashBundle_error_keeps_earlier_digests 0 broken_world
           [entry_agent] [] entry_configuration).
  - reflexivity.
  - constructor; [right; exists agent_v1; reflexivity | constructor].
  - left. reflexivity.
Defined.

(** ** The start of a run *)

Section Startup.
Context {R : Runtime}.

Lemma fold_emit_Stderr {A} (line : A -> string) (l : list A) :
  forall w, digests_only w (fold_left (fun w x => emit (Stderr (line x)) w) l w).
Proof.
  induction l as [ | x l IH]; intros w; [apply digests_only_refl | ].
  cbn [fold_left]. eapply digests_only_trans; [ | apply IH].
  split; [apply untouched_emit; reflexivity | split; [reflexivity | intros b; reflexivity]].
Qed.

Lemma initializeHaveBundle_changes (w : world) :
  digests_only w (fst (initializeHaveBundle w)).
Proof.
  unfold initializeHaveBundle, GetHostBundle.
  destruct (String.eqb GOOS "linux"); [ | apply digests_only_refl].
  unfold bind at 1, ret at 1. unfold bind at 1.
  pose proof (HashBundle_range_changes bundleEntryLinux
                (seq 0 (length (elems bundleEntryLinux w))) w) as H1.
  fold (HashBundle bundleEntryLinux w) in H1.
  destruct (HashBundle bundleEntryLinux w) as [w1 [have | e | msg]]; cbn [fst] in *;
    try exact H1.
  unfold bind, Fprintf_Stderr, log. cbn [fst].
  eapply digests_only_trans; [exact H1 | ].
  eapply digests_only_trans; [ | apply fold_emit_Stderr].
  split; [apply untouched_emit; reflexivity | split; [reflexivity | intros b; reflexivity]].
Qed.

(** On a platform the dictionary has no table for, the run ends at
    once with status 1: it has printed the error of [GetHostBundle]
    and done nothing else. *)
Theorem main_unsupported_platform {Rm : Remote} {G : Gzip} (w : world) :
  GOOS <> "linux" ->
  main w
  = (emit (Stderr ("main() -> GetHostBundle() -> no entry for " +:+ GOOS
                   +:+ " in bundle dictionary")) w,
     1).
Proof.
  intros Hos. unfold main, initializeHaveBundle, GetHostBundle.
  apply String.eqb_neq in Hos. rewrite Hos. reflexivity.
Qed.

(** Without a manifest there is no reconciliation: when the manifest
    request does not bring one, the run ends with a status other than
    0, and it has created, written and renamed nothing. *)
Theorem main_without_manifest {Rm : Remote} {G : Gzip} (w : world) :
  (forall m, post_manifest manifest_params <> ReplyValue m) ->
  snd (main w) <> 0
  /\ untouched w (fst (main w))
  /\ apiManifest (fst (main w)) = apiManifest w.
Proof.
  intros Hreply. unfold main.
  pose proof (initializeHaveBundle_changes w) as (U1 & M1 & _).
  assert (Hline : forall (ev : event) (w1 : world),
            is_write_event ev = false -> untouched w w1 -> untouched w (emit ev w1)).
  { intros ev w1 Hev H. eapply untouched_trans; [exact H | ].
    apply untouched_emit, Hev. }
  destruct (initializeHaveBundle w) as [w1 [have | e | msg]]; cbn [fst snd] in *.
  - unfold requestManifest. fold manifest_params.
    unfold bind, Fprintf_Stderr, log.
    destruct (post_manifest manifest_params) as [e | | e | m] eqn:Hr;
      cbn [fst snd fail panic emit apiManifest];
      try (split; [discriminate | split; [ | exact M1]];
           repeat (apply Hline; [reflexivity | ]); exact U1).
    exfalso. exact (Hreply m eq_refl).
  - split; [discriminate | split; [apply Hline; [reflexivity | exact U1] | exact M1]].
  - split; [discriminate | split; [exact U1 | exact M1]].
Qed.

End Startup.

Lemma main_unsupported_platform_witness :
  @main plan9_386 good_remote stored_gzip host_world
  = (emit (Stderr "main() -> GetHostBundle() -> no entry for plan9 in bundle dictionary")
       host_world,
     1).
Proof.
  apply (@main_unsupported_platform plan9_386 good_remote stored_gzip host_world).
  discriminate.
Defined.

Lemma main_without_manifest_witness :
  snd (@main linux_amd64 unreachable_remote stored_gzip host_world) <> 0
  /\ untouched host_world (fst (@main linux_amd64 unreachable_remote stored_gzip host_world))
  /\ apiManifest (fst (@main linux_amd64 unreachable_remote stored_gzip host_world))
     = apiManifest host_world.
Proof.
  apply (@main_without_manifest linux_amd64 unreachable_remote stored_gzip host_world).
  intros m. discriminate.
Defined.
